(** * box: the cache-aware commit protocol, cache lookup, content hashing,
      archive packaging and the scoped build steps.

    The Go code talks to the container runtime through [b.client]; every such
    call is an effect.  Programs are embedded as finite trees of runtime calls
    ([Prog]): a leaf is a return value, a node is one call together with the
    continuation that receives the runtime's answer.  A builder that Go
    mutates through its pointer receiver is threaded explicitly. *)

From Stdlib Require Import String Ascii List Bool ZArith Arith Lia.
From Stdlib.Strings Require Import Byte.
From Stdlib Require Import DecimalString Permutation OrderedTypeEx.
Import ListNotations.

Local Open Scope list_scope.
Local Open Scope string_scope.

(** ** Go values *)

(** A Go [error]: [None] is [nil], [Some msg] an error whose [Error()] text is
    [msg]. *)
Definition error := option string.

Definition nonempty (s : string) : bool := negb (s =? "").

(** The double-quote character, and the rendering of [%q] for the identifiers
    this program quotes (container ids: hexadecimal text, nothing to escape). *)
Definition dquote : string := String (ascii_of_nat 34) EmptyString.
Definition quoted (s : string) : string := dquote ++ s ++ dquote.

(** [%d] *)
Definition itoa (z : Z) : string := NilZero.string_of_int (Z.to_int z).

(** ** The runtime's data (engine-api types, the fields the program touches) *)

Record Config := mkConfig {
  Image : string;
  WorkingDir : string;
  User : string;
  Cmd : list string;
  Entrypoint : list string;
  Env : list string;
  Tty : bool;
  AttachStdout : bool;
  AttachStderr : bool
}.

Definition set_Image (v : string) (c : Config) : Config :=
  mkConfig v (WorkingDir c) (User c) (Cmd c) (Entrypoint c) (Env c)
           (Tty c) (AttachStdout c) (AttachStderr c).
Definition set_WorkingDir (v : string) (c : Config) : Config :=
  mkConfig (Image c) v (User c) (Cmd c) (Entrypoint c) (Env c)
           (Tty c) (AttachStdout c) (AttachStderr c).
Definition set_User (v : string) (c : Config) : Config :=
  mkConfig (Image c) (WorkingDir c) v (Cmd c) (Entrypoint c) (Env c)
           (Tty c) (AttachStdout c) (AttachStderr c).
Definition set_Cmd (v : list string) (c : Config) : Config :=
  mkConfig (Image c) (WorkingDir c) (User c) v (Entrypoint c) (Env c)
           (Tty c) (AttachStdout c) (AttachStderr c).
Definition set_Entrypoint (v : list string) (c : Config) : Config :=
  mkConfig (Image c) (WorkingDir c) (User c) (Cmd c) v (Env c)
           (Tty c) (AttachStdout c) (AttachStderr c).

(** One element of the answer to [ImageList]. *)
Record ImageSummary := mkImageSummary {
  ID : string;
  ParentID : string
}.

(** The answer to [ImageInspectWithRaw]. *)
Record ImageInspect := mkImageInspect {
  Comment : string;
  InspectConfig : Config
}.

(** The answer to [ContainerCommit]. *)
Record CommitResponse := mkCommitResponse { CommitID : string }.

(** The answer to [ContainerAttach]: the stream the caller copies to its
    standard output, which ends normally or with a read error. *)
Record HijackedResponse := mkHijacked {
  Output : string;
  ReadErr : error
}.

(** ** Runtime calls *)

Inductive Call : Type -> Type :=
| ContainerCreate (cfg : Config) : Call (string * error)
| ContainerRemove (id : string) (force : bool) : Call error
| ContainerCommit (id : string) (cfg : Config) (comment : string)
    : Call (CommitResponse * error)
| ImageList : Call (list ImageSummary * error)
| ImageInspectWithRaw (id : string) : Call (ImageInspect * error)
| ContainerAttach (id : string) : Call (HijackedResponse * error)
| ContainerStart (id : string) : Call error
| ContainerWait (id : string) : Call (Z * error).

(** ** Programs over an interface

    [Prog E A] is a finite tree: a leaf returns an [A], a node performs one
    operation [e : E R] of the interface [E] and continues with the answer. *)

Inductive Prog (E : Type -> Type) (A : Type) : Type :=
| Ret (a : A)
| Do (R : Type) (e : E R) (k : R -> Prog E A).

Arguments Ret {E A} a.
Arguments Do {E A R} e k.

Fixpoint bind {E : Type -> Type} {A B : Type} (p : Prog E A)
    (f : A -> Prog E B) : Prog E B :=
  match p with
  | Ret a => f a
  | Do e k => Do e (fun r => bind (k r) f)
  end.

Definition call {E : Type -> Type} {R : Type} (e : E R) : Prog E R :=
  Do e (fun r => Ret r).

Declare Scope prog_scope.
Delimit Scope prog_scope with prog.
Notation "x <- p ;; q" := (bind p (fun x => q))
  (at level 100, p at next level, right associativity) : prog_scope.
Notation "' pat <- p ;; q" := (bind p (fun x => match x with pat => q end))
  (at level 100, pat pattern, p at next level, right associativity)
  : prog_scope.
Local Open Scope prog_scope.

(** Signal handling of the process ([os/signal]).  [Notify id] stands for
    [signal.Notify] followed by the start of the goroutine that force-removes
    container [id] when an interrupt arrives; [Reset] is [signal.Reset]. *)
Inductive Sig : Type -> Type :=
| Notify (id : string) : Sig unit
| Reset : Sig unit.

(** What [commit] may do: runtime calls and signal handling. *)
Inductive Sys (R : Type) : Type :=
| Run (c : Call R)
| Signal (s : Sig R).

Arguments Run {R} c.
Arguments Signal {R} s.

(** A program that only calls the runtime, run where signals are handled. *)
Fixpoint lift {A : Type} (p : Prog Call A) : Prog Sys A :=
  match p with
  | Ret a => Ret a
  | Do c k => Do (Run c) (fun r => lift (k r))
  end.

(** *** Paths: what a program does, given the answers it receives *)

Inductive Event (E : Type -> Type) : Type :=
| Ev (R : Type) (e : E R) (r : R).

Arguments Ev {E R} e r.

Definition lift_event (ev : Event Call) : Event Sys :=
  match ev with Ev c r => Ev (Run c) r end.

(** [Path p tr a]: when the operations of [p] are answered as listed in [tr],
    [p] performs exactly the operations of [tr], in that order, and returns
    [a]. *)
Fixpoint Path {E : Type -> Type} {A : Type} (p : Prog E A)
    (tr : list (Event E)) (a : A) : Prop :=
  match p with
  | Ret a' => tr = [] /\ a' = a
  | Do e k => exists r tr', tr = Ev e r :: tr' /\ Path (k r) tr' a
  end.

(** *** Execution against a runtime, with the interrupt watcher

    The runtime is a transition function [handle] on a state [W].  The
    watcher is the only concurrent activity: while it is registered, an
    interrupt makes it issue one forced removal, which is interleaved with the
    calls of the main path.  [countdown = Some n] says the interrupt arrives
    after [n] further operations of the main path, counted from the moment
    the watcher is registered; [None] says no interrupt arrives. *)

Section Exec.

Context {W : Type}.
Variable handle : forall R : Type, Call R -> W -> R * W.

Record Machine := mkMachine {
  world : W;
  watcher : option string;
  countdown : option nat
}.

Definition deliver (s : Machine) : Machine :=
  match watcher s, countdown s with
  | Some id, Some O =>
    mkMachine (snd (handle _ (ContainerRemove id true) (world s))) None None
  | Some _, Some (S n) => mkMachine (world s) (watcher s) (Some n)
  | _, _ => s
  end.

Definition step {R : Type} (e : Sys R) (s : Machine) : R * Machine :=
  let s := deliver s in
  match e in Sys _ return R * Machine with
  | Run c =>
    let (r, w) := handle _ c (world s) in
    (r, mkMachine w (watcher s) (countdown s))
  | Signal sg =>
    match sg in Sig T return T * Machine with
    | Notify id => (tt, mkMachine (world s) (Some id) (countdown s))
    | Reset => (tt, mkMachine (world s) None (countdown s))
    end
  end.

Fixpoint exec {A : Type} (p : Prog Sys A) (s : Machine) : A * Machine :=
  match p with
  | Ret a => (a, s)
  | Do e k => let (r, s') := step e s in exec (k r) s'
  end.

Definition boot (w : W) (sig : option nat) : Machine := mkMachine w None sig.

End Exec.

(** ** The builder of the cache-aware version (package builder) *)

Module Builder.

Record Builder := mkBuilder {
  config : Config;
  workdir : string;
  user : string;
  cmd : list string;
  entrypoint : list string
}.

Definition set_config (c : Config) (b : Builder) : Builder :=
  mkBuilder c (workdir b) (user b) (cmd b) (entrypoint b).

(** A step hook: it receives the builder and the container id, may call the
    runtime and may change the builder; it returns a refined cache key and an
    error. *)
Definition Hook := Builder -> string -> Prog Call (Builder * (string * error)).

Section Protocol.

(** The process environment, [os.Getenv]. *)
Variable Getenv : string -> string.

Definition createEmptyContainer (b : Builder) : Prog Call (string * error) :=
  call (ContainerCreate (config b)).

Definition resetConfig (b : Builder) : Builder :=
  let c := set_WorkingDir (workdir b) (config b) in
  let c := set_User (user b) c in
  let c := set_Cmd (cmd b) c in
  let c := set_Entrypoint (entrypoint b) c in
  set_config c b.

(** From [b.resetConfig()] to the last [return] of [commit]. *)
Definition commit_tail (cacheKey id : string) (b : Builder)
  : Prog Sys (Builder * error) :=
  let b := resetConfig b in
  '(commitResp, err) <- call (Run (ContainerCommit id (config b) cacheKey)) ;;
  match err with
  | Some e => Ret (b, Some ("Error during commit: " ++ e))
  | None =>
    err <- call (Run (ContainerRemove id false)) ;;
    match err with
    | Some e =>
      Ret (b, Some ("Could not remove intermediate container "
                      ++ quoted id ++ ": " ++ e))
    | None => Ret (set_config (set_Image (CommitID commitResp) (config b)) b, None)
    end
  end.

(** What runs between the registration of the deferred function and the
    function's return. *)
Definition commit_body (cacheKey : string) (hook : option Hook) (id : string)
    (b : Builder) : Prog Sys (Builder * error) :=
  match hook with
  | Some h =>
    '(b, (tmp, err)) <- lift (h b id) ;;
    match err with
    | Some e => Ret (b, Some e)
    | None =>
      let cacheKey :=
        if nonempty tmp && (Getenv "NO_CACHE" =? "") then tmp else cacheKey in
      commit_tail cacheKey id b
    end
  | None => commit_tail cacheKey id b
  end.

Definition commit (cacheKey : string) (hook : option Hook) (b : Builder)
  : Prog Sys (Builder * error) :=
  let cacheKey := if nonempty (Getenv "NO_CACHE") then "" else cacheKey in
  '(id, err) <- lift (createEmptyContainer b) ;;
  match err with
  | Some e => Ret (b, Some e)
  | None =>
    _ <- call (Signal (Notify id)) ;;
    r <- commit_body cacheKey hook id b ;;
    (* the deferred function *)
    _ <- call (Run (ContainerRemove id true)) ;;
    _ <- call (Signal Reset) ;;
    Ret r
  end.

(** The cache hit of [consultCache]: the inspected configuration replaces the
    builder's, the builder's canonical fields follow it, and the image id is
    the candidate's. *)
Definition adopt (inspect : ImageInspect) (imgID : string) (b : Builder)
  : Builder :=
  let c := InspectConfig inspect in
  mkBuilder (set_Image imgID c) (WorkingDir c) (User c) (Cmd c) (Entrypoint c).

(** The [for _, img := range images] loop. *)
Fixpoint scanImages (cacheKey : string) (images : list ImageSummary)
    (b : Builder) : Prog Call (Builder * (bool * error)) :=
  match images with
  | [] => Ret (b, (false, None))
  | img :: rest =>
    if ParentID img =? Image (config b) then
      '(inspect, err) <- call (ImageInspectWithRaw (ID img)) ;;
      match err with
      | Some e => Ret (b, (false, Some e))
      | None =>
        if Comment inspect =? cacheKey
        then Ret (adopt inspect (ID img) b, (true, None))
        else scanImages cacheKey rest b
      end
    else scanImages cacheKey rest b
  end.

Definition consultCache (cacheKey : string) (b : Builder)
  : Prog Call (Builder * (bool * error)) :=
  if Getenv "NO_CACHE" =? "" then
    if nonempty (Image (config b)) then
      '(images, err) <- call ImageList ;;
      match err with
      | Some e => Ret (b, (false, Some e))
      | None => scanImages cacheKey images b
      end
    else Ret (b, (false, None))
  else Ret (b, (false, None)).

Definition runHook (b : Builder) (id : string)
  : Prog Call (Builder * (string * error)) :=
  '(cearesp, err) <- call (ContainerAttach id) ;;
  match err with
  | Some e => Ret (b, ("", Some ("Could not attach to container: " ++ e)))
  | None =>
    err <- call (ContainerStart id) ;;
    match err with
    | Some e => Ret (b, ("", Some ("Could not start container: " ++ e)))
    | None =>
      match ReadErr cearesp with
      | Some e => Ret (b, ("", Some e))
      | None =>
        '(stat, err) <- call (ContainerWait id) ;;
        match err with
        | Some e => Ret (b, ("", Some e))
        | None =>
          if negb (stat =? 0)%Z
          then Ret (b, ("", Some ("Command exited with status " ++ itoa stat
                                    ++ " for container " ++ quoted id)))
          else Ret (b, ("", None))
        end
      end
    end
  end.

End Protocol.

End Builder.

(** ** The step functions of the first version (package main)

    This version keeps the tracked id in [b.id] and calls a [commit] that
    takes no argument.  The functions are registered in [jumpTable]; its
    [ArgSpec] makes the interpreter hand [user] and [workdir] one required
    argument, [args[0]], and a block, [args[1]]. *)

Module Dsl.

(** An mruby value other than a block. *)
Inductive Value := VNil | VString (s : string).

(** [arg.String()] *)
Definition to_s (v : Value) : string :=
  match v with VNil => "" | VString s => s end.

Record Builder := mkBuilder {
  config : Config;
  id : string;
  imageID : string
}.

Definition set_config (c : Config) (b : Builder) : Builder :=
  mkBuilder c (id b) (imageID b).
Definition set_id (v : string) (b : Builder) : Builder :=
  mkBuilder (config b) v (imageID b).

(** A block handed to a step.  [m.Yield(blk, arg)] runs it: the steps inside
    reach the same builder and the runtime; the block yields a value or an
    error. *)
Definition Block :=
  Value -> Builder -> Prog Call (Builder * (option Value * error)).

(** What a step function returns: [(mruby.Value, mruby.Value)], [None] for
    Go's [nil]. *)
Definition Returned := (option Value * option Value)%type.

(** The block with no step in it. *)
Definition emptyBlock : Block := fun _ b => Ret (b, (Some VNil, None)).

Section Steps.

(** [b.commit()] of this version; its body is not among the sources. *)
Variable commit : Builder -> Prog Call (Builder * (string * error)).

Definition from (arg0 : Value) (b : Builder) : Prog Call (Builder * Returned) :=
  let c := config b in
  let c := mkConfig (to_s arg0) (WorkingDir c) (User c) (Cmd c) (Entrypoint c)
                    (Env c) true true true in
  let b := set_config c b in
  '(b, (newid, err)) <- commit b ;;
  let b := set_id newid b in
  match err with
  | Some e => Ret (b, (Some (VString e), None))
  | None => Ret (b, (Some (VString ("Response: " ++ newid)), None))
  end.

Definition usage_from_first : string :=
  "`from` must be the first docker command`".

(** [run] after its guard, up to its [return]; the deferred restoration of
    [Cmd] is applied by [run]. *)
Definition run_body (b : Builder) : Prog Call (Builder * Returned) :=
  '(b, (newid, err)) <- commit b ;;
  let b := set_id newid b in
  match err with
  | Some e =>
    Ret (b, (Some (VString ("Error creating intermediate container: " ++ e)),
             None))
  | None =>
    '(cearesp, err) <- call (ContainerAttach (id b)) ;;
    match err with
    | Some e =>
      Ret (b, (Some (VString ("Error attaching to execution context "
                                ++ quoted (id b) ++ ": " ++ e)), None))
    | None =>
      err <- call (ContainerStart (id b)) ;;
      match err with
      | Some e =>
        Ret (b, (Some (VString ("Error attaching to execution context "
                                  ++ quoted (id b) ++ ": " ++ e)), None))
      | None =>
        match ReadErr cearesp with
        | Some e => Ret (b, (Some (VString e), None))
        | None => Ret (b, (None, None))
        end
      end
    end
  end.

Definition run (args : list Value) (b : Builder)
  : Prog Call (Builder * Returned) :=
  if imageID b =? "" then Ret (b, (Some (VString usage_from_first), None))
  else
    let stringArgs := map to_s args in
    let cmd := Cmd (config b) in
    let b := set_config
               (set_Cmd (("/bin/sh" :: "-c" :: nil) ++ stringArgs)%list
                        (config b)) b in
    '(b, ret) <- run_body b ;;
    Ret (set_config (set_Cmd cmd (config b)) b, ret).

Definition user (arg0 : Value) (blk : Block) (b : Builder)
  : Prog Call (Builder * Returned) :=
  let b := set_config (set_User (to_s arg0) (config b)) b in
  '(b, (val, err)) <- blk arg0 b ;;
  let b := set_config (set_User "" (config b)) b in
  let b := set_id "" b in
  match err with
  | Some e => Ret (b, (Some (VString ("Could not yield: " ++ e)), None))
  | None => Ret (b, (val, None))
  end.

Definition workdir (arg0 : Value) (blk : Block) (b : Builder)
  : Prog Call (Builder * Returned) :=
  let b := set_config (set_WorkingDir (to_s arg0) (config b)) b in
  '(b, (val, err)) <- blk arg0 b ;;
  let b := set_config (set_WorkingDir "" (config b)) b in
  let b := set_id "" b in
  match err with
  | Some e => Ret (b, (Some (VString ("Could not yield: " ++ e)), None))
  | None => Ret (b, (val, None))
  end.

End Steps.

End Dsl.

(** ** Files: the content hasher and the archive packager *)

Module Files.

(** *** path/filepath *)

Definition slash : ascii := ascii_of_nat 47.

(** [strings.Split(s, "/")] *)
Fixpoint split (s : string) : list string :=
  match s with
  | EmptyString => "" :: nil
  | String c s' =>
    if Ascii.eqb c slash then "" :: split s'
    else match split s' with
         | nil => String c "" :: nil
         | h :: t => String c h :: t
         end
  end.

Definition rooted (s : string) : bool :=
  match s with
  | String c _ => Ascii.eqb c slash
  | EmptyString => false
  end.

(** The element loop of [Clean]; [out] holds the elements kept so far, the
    last one first.  Empty elements and [.] are dropped, [..] removes the
    element before it when there is one to remove. *)
Fixpoint cleanElems (isRooted : bool) (elems out : list string) : list string :=
  match elems with
  | nil => rev out
  | e :: rest =>
    if (e =? "") || (e =? ".") then cleanElems isRooted rest out
    else if e =? ".." then
      match out with
      | top :: below =>
        if top =? ".." then cleanElems isRooted rest (e :: out)
        else cleanElems isRooted rest below
      | nil =>
        if isRooted then cleanElems isRooted rest out
        else cleanElems isRooted rest (e :: out)
      end
    else cleanElems isRooted rest (e :: out)
  end.

Definition Clean (path : string) : string :=
  let r := rooted path in
  let body := String.concat "/" (cleanElems r (split path) nil) in
  let out := if r then "/" ++ body else body in
  if out =? "" then "." else out.

(** [filepath.Join] of two elements. *)
Definition Join (a b : string) : string :=
  if nonempty a then Clean (a ++ "/" ++ b)
  else if nonempty b then Clean b
  else "".

(** *** encoding/hex *)

Definition hexdigit (n : N) : ascii :=
  if (n <? 10)%N then ascii_of_N (48 + n) else ascii_of_N (87 + n).

Fixpoint EncodeToString (src : list byte) : string :=
  match src with
  | nil => ""
  | x :: rest =>
    let v := Byte.to_N x in
    String (hexdigit (v / 16)) (String (hexdigit (v mod 16)) (EncodeToString rest))
  end.

(** *** The host file system

    A tree of directories and regular files.  [mode] and [modTime] are what
    [Lstat] reports besides the kind and the size; [access] says whether this
    process may open the node for reading. *)

Record Stat := mkStat {
  mode : N;
  modTime : Z;
  access : bool
}.

#[local] Unset Elimination Schemes.
Inductive Node :=
| File (st : Stat) (data : list byte)
| Dir (st : Stat) (entries : list (string * Node)).
#[local] Set Elimination Schemes.

Definition stat (n : Node) : Stat :=
  match n with File st _ => st | Dir st _ => st end.

Definition IsDir (n : Node) : bool :=
  match n with Dir _ _ => true | File _ _ => false end.

Record FS := mkFS {
  root : Node;
  cwd : list string
}.

Fixpoint child (name : string) (entries : list (string * Node)) : option Node :=
  match entries with
  | nil => None
  | (n, x) :: rest => if n =? name then Some x else child name rest
  end.

Fixpoint descend (n : Node) (elems : list string) : option Node :=
  match elems with
  | nil => Some n
  | e :: rest =>
    match n with
    | Dir _ entries =>
      match child e entries with
      | Some x => descend x rest
      | None => None
      end
    | File _ _ => None
    end
  end.

(** Name resolution: from the root for a rooted path, from the working
    directory otherwise; the empty path names nothing. *)
Definition resolve (fs : FS) (path : string) : option Node :=
  if path =? "" then None
  else
    let start := if rooted path then nil else cwd fs in
    descend (root fs) (cleanElems true (start ++ split path)%list nil).

(** *** archive/tar *)

Definition TypeReg : ascii := ascii_of_nat 48.
Definition TypeDir : ascii := ascii_of_nat 53.

Record Header := mkHeader {
  Name : string;
  Linkname : string;
  Typeflag : ascii;
  Size : nat;
  Mode : N;
  ModTime : Z
}.

(** One member of the archive: its header and the bytes written after it. *)
Definition Entry := (Header * list byte)%type.

(** [filepath.Base]: the last element of the path. *)
Definition Base (path : string) : string :=
  match rev (filter nonempty (split path)) with
  | e :: _ => e
  | nil => if path =? "" then "." else "/"
  end.

(** [tar.FileInfoHeader(fi, link)] for the two kinds of node of the model;
    [name] is [fi.Name()], the base name of the path [fi] was obtained from.
    [link] is only read for symbolic links. *)
Definition FileInfoHeader (name : string) (fi : Node) : Header :=
  match fi with
  | File st data => mkHeader name "" TypeReg (length data) (mode st) (modTime st)
  | Dir st _ => mkHeader (name ++ "/") "" TypeDir 0 (mode st) (modTime st)
  end.

Definition rename (name : string) (h : Header) : Header :=
  mkHeader name name (Typeflag h) (Size h) (Mode h) (ModTime h).

Definition denied (op path : string) : string :=
  op ++ " " ++ path ++ ": permission denied".
Definition missing (op path : string) : string :=
  op ++ " " ++ path ++ ": no such file or directory".

(** [io.Copy] from an opened node: the bytes of a regular file; reading a
    directory fails. *)
Definition readAll (path : string) (n : Node) : list byte * error :=
  match n with
  | File _ data => (data, None)
  | Dir _ _ => (nil, Some ("read " ++ path ++ ": is a directory"))
  end.

(** [sort.Strings] on the names of a directory, carried with what the walk
    found below each name. *)
Fixpoint insert {A : Type} (x : string * A) (l : list (string * A))
  : list (string * A) :=
  match l with
  | nil => x :: nil
  | y :: rest =>
    if String.leb (fst x) (fst y) then x :: l else y :: insert x rest
  end.

Fixpoint sortByName {A : Type} (l : list (string * A)) : list (string * A) :=
  match l with
  | nil => nil
  | x :: rest => insert x (sortByName rest)
  end.

(** Visiting in order, stopping at the first error. *)
Fixpoint inOrder (results : list (string * (list Entry * error)))
  : list Entry * error :=
  match results with
  | nil => (nil, None)
  | (_, (out, Some e)) :: _ => (out, Some e)
  | (_, (out, None)) :: rest =>
    let (out', err) := inOrder rest in ((out ++ out')%list, err)
  end.

Section Packager.

(** Where the entries are to land in the container. *)
Variable target : string.

(** The function handed to [filepath.Walk]: what it appends to the archive
    for [path], and its error.  [fi] is the node [path] names, [err] what the
    walk reports for it. *)
Definition visit (path : string) (fi : Node) (err : error)
  : list Entry * error :=
  match err with
  | Some e => (nil, Some e)
  | None =>
    let header := rename (Join target path) (FileInfoHeader (Base path) fi) in
    (* tw.WriteHeader(header), then os.Open(path) *)
    if access (stat fi) then
      if Ascii.eqb (Typeflag header) TypeReg then
        let (data, err) := readAll path fi in ((header, data) :: nil, err)
      else ((header, nil) :: nil, None)
    else ((header, nil) :: nil, Some (denied "open" path))
  end.

(** [filepath.Walk]'s [walk]: the node itself, then its entries by name. *)
Fixpoint walk (path : string) (info : Node) {struct info}
  : list Entry * error :=
  match info with
  | File _ _ => visit path info None
  | Dir st entries =>
    let err := if access st then None else Some (denied "open" path) in
    let (out, err1) := visit path info err in
    match err, err1 with
    | None, None =>
      let below :=
        map (fun e : string * Node =>
               (fst e, walk (Join path (fst e)) (snd e))) entries in
      let (out', err') := inOrder (sortByName below) in
      ((out ++ out')%list, err')
    | _, _ => (out, err1)
    end
  end.

(** [tarPath]: the returned name and error, and what was written to the
    temporary file.  [tmp] is the outcome of [ioutil.TempFile]. *)
Definition tarPath (fs : FS) (tmp : string * error) (rel : string)
  : (string * error) * list Entry :=
  match resolve fs rel with
  | None => (("", Some (missing "lstat" rel)), nil)
  | Some fi =>
    match tmp with
    | (_, Some e) => (("", Some e), nil)
    | (f, None) =>
      if IsDir fi then
        let (out, err) := walk rel fi in
        match err with
        | Some e => (("", Some e), out)
        | None => ((f, None), out)
        end
      else
        let header := rename target (FileInfoHeader (Base rel) fi) in
        if access (stat fi) then
          let (data, err) := readAll rel fi in
          match err with
          | Some e => (("", Some e), (header, data) :: nil)
          | None => ((f, None), (header, data) :: nil)
          end
        else (("", Some (denied "open" rel)), (header, nil) :: nil)
    end
  end.

End Packager.

Section Hasher.

(** [sha512.New512_256()] fed with the bytes, then [Sum(nil)]. *)
Variable Sum512_256 : list byte -> list byte.

Definition sumFile (fs : FS) (fn : string) : string * error :=
  match resolve fs fn with
  | None => ("", Some (missing "open" fn))
  | Some f =>
    if access (stat f) then
      let (data, err) := readAll fn f in
      match err with
      | Some e => ("", Some e)
      | None => ("box:copy " ++ EncodeToString (Sum512_256 data), None)
      end
    else ("", Some (denied "open" fn))
  end.

End Hasher.

End Files.

(** ** Notions used in the statements *)

(** A program that leaves signal handling alone. *)
Fixpoint quiet {A : Type} (p : Prog Sys A) : Prop :=
  match p with
  | Ret _ => True
  | Do e k =>
    match e with Run _ => True | Signal _ => False end /\ forall r, quiet (k r)
  end.

(** The watcher a machine may hold while [commit] works on container [id]. *)
Definition watching {W : Type} (id : string) (s : @Machine W) : Prop :=
  watcher s = Some id \/ watcher s = None.

(** The images of a listing that were committed from the builder's current
    image. *)
Definition children (b : Builder.Builder) (images : list ImageSummary)
  : list ImageSummary :=
  filter (fun img => ParentID img =? Image (Builder.config b)) images.

(** The inspections [consultCache] performs for a list of candidates, each
    paired with the runtime's answer. *)
Definition inspections (cands : list (ImageSummary * ImageInspect))
  : list (Event Call) :=
  map (fun c => Ev (ImageInspectWithRaw (ID (fst c))) (snd c, None)) cands.

(** How the hook part of [commit] went when it did not fail: the calls the
    hook made with their answers, the builder it left and the key it
    returned.  Without a hook there is no call, the builder is untouched and
    no key is returned. *)
Definition hook_returns (hook : option Builder.Hook) (b : Builder.Builder)
    (id : string) (trh : list (Event Call)) (b1 : Builder.Builder)
    (tmp : string) : Prop :=
  match hook with
  | Some h => Path (h b id) trh (b1, (tmp, None))
  | None => trh = nil /\ b1 = b /\ tmp = ""
  end.

(** A hook that, however the runtime answers, leaves the builder's image id
    as it found it. *)
Definition keeps_image (hook : option Builder.Hook) (b : Builder.Builder)
  : Prop :=
  match hook with
  | Some h =>
    forall id trh b1 r,
      Path (h b id) trh (b1, r) ->
      Image (Builder.config b1) = Image (Builder.config b)
  | None => True
  end.

(** The key [commit] starts from. *)
Definition startKey (Getenv : string -> string) (cacheKey : string) : string :=
  if nonempty (Getenv "NO_CACHE") then "" else cacheKey.

(** The calls [commit] makes around its body once the container exists. *)
Definition opening (b : Builder.Builder) (id : string) : list (Event Sys) :=
  Ev (Run (ContainerCreate (Builder.config b))) (id, None)
  :: Ev (Signal (Notify id)) tt :: nil.

Definition closing (id : string) (r : error) : list (Event Sys) :=
  Ev (Run (ContainerRemove id true)) r :: Ev (Signal Reset) tt :: nil.

(** The calls of [commit] from the commit of the container to its clean
    removal, with the runtime's answers: the clean removal is only reached
    when the commit went through. *)
Definition tail_events (cacheKey id : string) (b : Builder.Builder)
    (cresp : CommitResponse) (cerr rerr : error) : list (Event Sys) :=
  Ev (Run (ContainerCommit id (Builder.config (Builder.resetConfig b)) cacheKey))
     (cresp, cerr)
  :: match cerr with
     | Some _ => nil
     | None => Ev (Run (ContainerRemove id false)) rerr :: nil
     end.

(** A lower-case hexadecimal digit; a string of them. *)
Definition isHex (c : ascii) : bool :=
  let n := N_of_ascii c in
  ((48 <=? n) && (n <=? 57) || (97 <=? n) && (n <=? 102))%N.

Fixpoint allHex (s : string) : bool :=
  match s with
  | EmptyString => true
  | String c rest => isHex c && allHex rest
  end.

(** A result without an error. *)
Definition fine {A : Type} (r : A * error) : bool :=
  match snd r with None => true | Some _ => false end.

(** Every node of the tree can be opened for reading. *)
Fixpoint readable (n : Files.Node) : bool :=
  match n with
  | Files.File st _ => Files.access st
  | Files.Dir st entries =>
    Files.access st && forallb (fun e => readable (snd e)) entries
  end.

(** ** A reference runtime

    A small runtime to run the protocol against: containers are a list of
    ids, images a list of records, ids are numbered, and the operations named
    in [broken] fail. *)

Module Sim.

Record World := mkWorld {
  containers : list string;
  images : list (ImageSummary * ImageInspect);
  serial : nat;
  broken : list string
}.

Definition fresh (prefix : string) (w : World) : string :=
  prefix ++ NilEmpty.string_of_uint (Nat.to_uint (serial w)).

Definition isBroken (op : string) (w : World) : bool :=
  existsb (String.eqb op) (broken w).

Definition present (id : string) (w : World) : bool :=
  existsb (String.eqb id) (containers w).

Definition without (id : string) (w : World) : World :=
  mkWorld (filter (fun x => negb (id =? x)) (containers w))
          (images w) (serial w) (broken w).

Definition noConfig : Config := mkConfig "" "" "" nil nil nil false false false.

Definition handle (R : Type) (c : Call R) (w : World) : R * World :=
  match c in Call T return T * World with
  | ContainerCreate cfg =>
    if isBroken "create" w then (("", Some "create: runtime unavailable"), w)
    else
      let id := fresh "c" w in
      ((id, None),
       mkWorld (id :: containers w) (images w) (S (serial w)) (broken w))
  | ContainerRemove id force =>
    if present id w then
      if force || negb (isBroken "remove" w) then (None, without id w)
      else (Some "remove: container is in use", w)
    else (Some ("No such container: " ++ id), w)
  | ContainerCommit id cfg comment =>
    if present id w && negb (isBroken "commit" w) then
      let img := fresh "i" w in
      ((mkCommitResponse img, None),
       mkWorld (containers w)
               (images w ++ (mkImageSummary img (Image cfg),
                             mkImageInspect comment cfg) :: nil)%list
               (S (serial w)) (broken w))
    else ((mkCommitResponse "", Some "commit: refused"), w)
  | ImageList => ((map fst (images w), None), w)
  | ImageInspectWithRaw id =>
    match find (fun x => ID (fst x) =? id) (images w) with
    | Some x => ((snd x, None), w)
    | None => ((mkImageInspect "" noConfig, Some ("No such image: " ++ id)), w)
    end
  | ContainerAttach id =>
    if present id w then ((mkHijacked "" None, None), w)
    else ((mkHijacked "" None, Some ("No such container: " ++ id)), w)
  | ContainerStart id =>
    if present id w then (None, w)
    else (Some ("No such container: " ++ id), w)
  | ContainerWait id =>
    ((if isBroken "exit" w then 1%Z else 0%Z, None), w)
  end.

Definition empty (broken : list string) : World := mkWorld nil nil 0 broken.

End Sim.

(** ** Reading a file out of an image ([containerContent])

    [containerContent] uses one more operation of the client,
    [CopyFromContainer]; the interface below adds it to the runtime calls. *)

Module Content.

(** One member of the archive the runtime streams back: the name in its
    header and what reading its content yields. *)
Record Member := mkMember {
  MemberName : string;
  MemberData : list byte * error
}.

(** The archive as [tar.Reader] sees it: the members in order, then what
    [Next] reports after the last one, [None] for [io.EOF]. *)
Definition Archive := (list Member * error)%type.

Inductive Client : Type -> Type :=
| Api (R : Type) (c : Call R) : Client R
| CopyFromContainer (id path : string) : Client (Archive * error).

Arguments Api {R} c.

Fixpoint api {A : Type} (p : Prog Call A) : Prog Client A :=
  match p with
  | Ret a => Ret a
  | Do c k => Do (Api c) (fun r => api (k r))
  end.

(** The [for] loop over [tr.Next()]: the header it stops at ([None] for the
    nil header left by [io.EOF]), or the error that ends the function. *)
Fixpoint seek (name : string) (members : list Member) (final : error)
  : option Member * error :=
  match members with
  | nil =>
    match final with
    | None => (None, None)
    | Some e => (None, Some e)
    end
  | m :: rest =>
    if MemberName m =? name then (Some m, None) else seek name rest final
  end.

Section Reading.

(** [%q] of [fmt] applied to a string: [strconv.Quote], which puts the text
    between double quotes and escapes what it must. *)
Variable Quote : string -> string.

(** From [tar.NewReader(rc)] to the last [return]. *)
Definition extract (fn : string) (rc : Archive) : list byte * error :=
  match seek (Files.Base fn) (fst rc) (snd rc) with
  | (_, Some e) => (nil, Some e)
  | (header, None) =>
    match header with
    | None => (nil, Some ("Could not find " ++ Quote fn ++ " in container"))
    | Some m =>
      if negb (MemberName m =? Files.Base fn)
      then (nil, Some ("Could not find " ++ Quote fn ++ " in container"))
      else MemberData m
    end
  end.

Definition containerContent (b : Builder.Builder) (fn : string)
  : Prog Client (list byte * error) :=
  '(id, err) <- api (Builder.createEmptyContainer b) ;;
  match err with
  | Some e => Ret (nil, Some e)
  | None =>
    r <- ('(rc, err) <- call (CopyFromContainer id fn) ;;
          match err with
          | Some e => Ret (nil, Some e)
          | None => Ret (extract fn rc)
          end) ;;
    (* the deferred removal *)
    _ <- call (Api (ContainerRemove id true)) ;;
    Ret r
  end.

End Reading.

End Content.

(** ** The other step functions of the first version *)

Module Steps.

Import Dsl.

(** An mruby hash as the step functions read it: [Keys()] with the result of
    [Get(i)] for each index of the key array, and [Get(key)]. *)
Record RubyHash := mkRubyHash {
  Keys : list (Value * error) * error;
  Get : Value -> Value * error
}.

Definition add_Env (v : string) (c : Config) : Config :=
  mkConfig (Image c) (WorkingDir c) (User c) (Cmd c) (Entrypoint c)
           (Env c ++ v :: nil)%list (Tty c) (AttachStdout c) (AttachStderr c).

(** [fmt.Sprintf("%s=%s", key.String(), value.String())] *)
Definition assignment (key value : Value) : string :=
  to_s key ++ "=" ++ to_s value.

(** The loop of [env] over the key array. *)
Fixpoint envLoop (hash : RubyHash) (keys : list (Value * error)) (b : Builder)
  : Builder * error :=
  match keys with
  | nil => (b, None)
  | (_, Some e) :: _ => (b, Some e)
  | (key, None) :: rest =>
    match Get hash key with
    | (_, Some e) => (b, Some e)
    | (value, None) =>
      envLoop hash rest
              (set_config (add_Env (assignment key value) (config b)) b)
    end
  end.

Section Steps.

Variable commit : Builder -> Prog Call (Builder * (string * error)).

(** [b.id, err = b.commit()] and the return that follows it in [env], [cmd]
    and [entrypoint]. *)
Definition commitStep (b : Builder) : Prog Call (Builder * Returned) :=
  '(b, (newid, err)) <- commit b ;;
  let b := set_id newid b in
  match err with
  | Some e =>
    Ret (b, (Some (VString ("Error creating intermediate container: " ++ e)),
             None))
  | None => Ret (b, (None, None))
  end.

(** [env]; [hash] is [args[0].Hash()]. *)
Definition env (hash : RubyHash) (b : Builder) : Prog Call (Builder * Returned) :=
  match Keys hash with
  | (_, Some e) => Ret (b, (Some (VString e), None))
  | (keys, None) =>
    match envLoop hash keys b with
    | (b, Some e) => Ret (b, (Some (VString e), None))
    | (b, None) => commitStep b
    end
  end.

Definition cmd (args : list Value) (b : Builder) : Prog Call (Builder * Returned) :=
  let stringArgs := map to_s args in
  commitStep (set_config (set_Cmd stringArgs (config b)) b).

Definition entrypoint (args : list Value) (b : Builder)
  : Prog Call (Builder * Returned) :=
  let stringArgs := map to_s args in
  commitStep (set_config (set_Entrypoint stringArgs (config b)) b).

End Steps.

End Steps.

(** ** Layers (package layer) *)

Module Layer.

Definition dirMode : N := 511.  (* 0777 *)

Record Layer := mkLayer {
  dirname : string;
  workingDir : string
}.

(** The operations of [os] the package uses. *)
Inductive OS : Type -> Type :=
| Getwd : OS (string * error)
| Chdir (dir : string) : OS error
| Mkdir (name : string) (perm : N)  : OS error
| RemoveAll (path : string) : OS error.

(** The element loop of [filepath.Rel]: it stops at the first pair of
    elements that differ and refuses when the base's element is [..]. *)
Fixpoint relBlocked (base targ : list string) : bool :=
  match base, targ with
  | b :: base', t :: targ' =>
    if b =? t then relBlocked base' targ' else b =? ".."
  | _, _ => false
  end.

(** The error of [filepath.Rel(basepath, targpath)]; [New] discards the
    path. *)
Definition RelError (basepath targpath : string) : error :=
  let base := Files.Clean basepath in
  let targ := Files.Clean targpath in
  if targ =? base then None
  else
    let base := if base =? "." then "" else base in
    let refuse :=
      Some ("Rel: can't make " ++ targpath ++ " relative to " ++ basepath) in
    if negb (Bool.eqb (Files.rooted base) (Files.rooted targ)) then refuse
    else if relBlocked (if base =? "" then nil else Files.split base)
                       (Files.split targ)
         then refuse
         else None.

(** [filepath.Abs] *)
Definition Abs (path : string) : Prog OS (string * error) :=
  if Files.rooted path then Ret (Files.Clean path, None)
  else
    '(wd, err) <- call Getwd ;;
    match err with
    | Some e => Ret ("", Some e)
    | None => Ret (Files.Join wd path, None)
    end.

Definition New (dirname workingDir : string) : Prog OS (option Layer * error) :=
  '(workingDir, err) <-
     (if workingDir =? "" then call Getwd else Ret (workingDir, None)) ;;
  match err with
  | Some e => Ret (None, Some e)
  | None =>
    match RelError workingDir dirname with
    | Some e => Ret (None, Some e)
    | None =>
      '(workingDir, err) <- Abs dirname ;;
      match err with
      | Some e => Ret (None, Some e)
      | None => Ret (Some (mkLayer dirname workingDir), None)
      end
    end
  end.

Definition inChdir (l : Layer) (fun_ : Layer -> Prog OS error) : Prog OS error :=
  '(wd, err) <- call Getwd ;;
  match err with
  | Some e => Ret (Some e)
  | None =>
    err <- call (Chdir (workingDir l)) ;;
    match err with
    | Some e => Ret (Some e)
    | None =>
      err <- fun_ l ;;
      match err with
      | Some e => Ret (Some e)
      | None => call (Chdir wd)
      end
    end
  end.

Definition Create (l : Layer) : Prog OS error :=
  inChdir l (fun l => call (Mkdir (dirname l) dirMode)).

Definition Remove (l : Layer) : Prog OS error :=
  inChdir l (fun l => call (RemoveAll (dirname l))).

End Layer.

(** ** Further notions used in the statements *)

(** An inspection of one of the candidates of a listing, whatever its
    answer. *)
Definition inspectsChild (b : Builder.Builder) (images : list ImageSummary)
    (ev : Event Call) : Prop :=
  exists img ans,
    In img (children b images) /\ ev = Ev (ImageInspectWithRaw (ID img)) ans.

(** The number of files and directories in a tree. *)
Fixpoint nodes (n : Files.Node) : nat :=
  match n with
  | Files.File _ _ => 1
  | Files.Dir _ entries =>
    S (list_sum (map (fun e => nodes (snd e)) entries))
  end.

(** A member as the packager writes it when nothing fails: named and linked
    alike, a regular file with as many bytes as its header announces, or a
    directory with none. *)
Definition wellFormed (e : Files.Entry) : Prop :=
  Files.Name (fst e) = Files.Linkname (fst e)
  /\ Files.Size (fst e) = length (snd e)
  /\ (Files.Typeflag (fst e) = Files.TypeReg
      \/ Files.Typeflag (fst e) = Files.TypeDir /\ snd e = nil).

(** The builder with further entries at the end of its environment. *)
Definition withEnv (vs : list string) (b : Dsl.Builder) : Dsl.Builder :=
  let c := Dsl.config b in
  Dsl.set_config
    (mkConfig (Image c) (WorkingDir c) (User c) (Cmd c) (Entrypoint c)
              (Env c ++ vs)%list (Tty c) (AttachStdout c) (AttachStderr c)) b.

(** The entry [env] writes for a key of the hash. *)
Definition entryOf (hash : Steps.RubyHash) (key : Dsl.Value) : string :=
  Steps.assignment key (fst (Steps.Get hash key)).

(** A [commit] of the first version that leaves the configuration alone. *)
Definition keeps_config
    (commit : Dsl.Builder -> Prog Call (Dsl.Builder * (string * error)))
  : Prop :=
  forall b tr b' r, Path (commit b) tr (b', r) -> Dsl.config b' = Dsl.config b.

(** The builder [run] hands to [commit]. *)
Definition shell (args : list Dsl.Value) (b : Dsl.Builder) : Dsl.Builder :=
  Dsl.set_config
    (set_Cmd ("/bin/sh" :: "-c" :: map Dsl.to_s args) (Dsl.config b)) b.

(** The builder [from] hands to [commit]. *)
Definition rebased (arg0 : Dsl.Value) (b : Dsl.Builder) : Dsl.Builder :=
  let c := Dsl.config b in
  Dsl.set_config
    (mkConfig (Dsl.to_s arg0) (WorkingDir c) (User c) (Cmd c) (Entrypoint c)
              (Env c) true true true) b.

(** Reading hexadecimal text back ([hex.DecodeString], lower case). *)
Definition fromHexChar (c : ascii) : option N :=
  let n := N_of_ascii c in
  if ((48 <=? n) && (n <=? 57))%N then Some (n - 48)%N
  else if ((97 <=? n) && (n <=? 102))%N then Some (n - 87)%N
  else None.

Fixpoint DecodeString (s : string) : option (list byte) :=
  match s with
  | EmptyString => Some nil
  | String hi (String lo rest) =>
    match fromHexChar hi, fromHexChar lo, DecodeString rest with
    | Some h, Some l, Some bytes =>
      match Byte.of_N (h * 16 + l) with
      | Some x => Some (x :: bytes)
      | None => None
      end
    | _, _, _ => None
    end
  | String _ EmptyString => None
  end.

(** ** Concrete data for running the definitions *)

Module Sample.

Definition caching : string -> string := fun _ => "".
Definition bypass : string -> string :=
  fun name => if name =? "NO_CACHE" then "1" else "".

Definition debian : Config :=
  mkConfig "debian" "" "" nil nil nil true true true.

Definition builder : Builder.Builder :=
  Builder.mkBuilder debian "/srv" "app" ("/bin/sh" :: nil) nil.

(** A hook that returns a refined key without calling the runtime. *)
Definition keyHook (key : string) : Builder.Hook :=
  fun b _ => Ret (b, (key, None)).

(** A world in which the builder's image has two children, the second one
    committed under the key [run ls]. *)
Definition layered : Sim.World :=
  Sim.mkWorld nil
    ((mkImageSummary "i0" "debian", mkImageInspect "run pwd" debian)
     :: (mkImageSummary "i1" "other", mkImageInspect "run ls" debian)
     :: (mkImageSummary "i2" "debian",
         mkImageInspect "run ls"
           (mkConfig "" "/work" "root" ("ls" :: nil) ("sh" :: nil) nil
                     true true true))
     :: nil)
    3 nil.

(** The first version's builder inside a [user "deploy"] scope, as the
    nested block receives it. *)
Definition scoped : Dsl.Builder :=
  Dsl.mkBuilder (mkConfig "debian" "" "deploy" nil nil nil true true true)
                "c7" "i7".

Definition rw : Files.Stat := Files.mkStat 420 1469000000 true.
Definition locked : Files.Stat := Files.mkStat 0 1469000000 false.

(** A working directory that holds [a/x.txt] and [a/b/y.txt]. *)
Definition tree (st : Files.Stat) (x y : list byte) : Files.FS :=
  Files.mkFS
    (Files.Dir rw
       (("a", Files.Dir rw
                (("x.txt", Files.File st x)
                 :: ("b", Files.Dir rw (("y.txt", Files.File rw y) :: nil))
                 :: nil))
        :: nil))
    nil.

(** The same bytes under another name, mode and time. *)
Definition elsewhere (x : list byte) : Files.FS :=
  Files.mkFS
    (Files.Dir rw
       (("srv", Files.Dir rw
                  (("copy.bin", Files.File (Files.mkStat 256 7 true) x) :: nil))
        :: nil))
    ("srv" :: nil).

(** A builder on which no step has run yet. *)
Definition blank : Dsl.Builder :=
  Dsl.mkBuilder (mkConfig "" "" "" nil nil nil false false false) "" "".

(** A stand-in for the first version's [commit]. *)
Definition commit0 : Dsl.Builder -> Prog Call (Dsl.Builder * (string * error)) :=
  fun b =>
    '(newid, err) <- call (ContainerCreate (Dsl.config b)) ;;
    Ret (b, (newid, err)).

End Sample.

(** More data for running the definitions. *)

Module Fixtures.

(** An archive streamed back for [/etc/hostname]. *)
Definition hostname : Content.Archive :=
  (Content.mkMember "etc" (nil, None)
   :: Content.mkMember "hostname" (x62 :: x6f :: x78 :: nil, None)
   :: Content.mkMember "hostname" (x6f :: nil, None)
   :: nil, None).

(** A hash with two entries. *)
Definition pathAndLang : Steps.RubyHash :=
  Steps.mkRubyHash
    ((Dsl.VString "PATH", None) :: (Dsl.VString "LANG", None) :: nil, None)
    (fun key => if Dsl.to_s key =? "PATH" then (Dsl.VString "/bin", None)
                else (Dsl.VString "C", None)).

(** A hash whose second value cannot be read. *)
Definition halfBroken : Steps.RubyHash :=
  Steps.mkRubyHash
    ((Dsl.VString "PATH", None) :: (Dsl.VString "LANG", None) :: nil, None)
    (fun key => if Dsl.to_s key =? "PATH" then (Dsl.VString "/bin", None)
                else (Dsl.VNil, Some "KeyError")).

(** A builder of the first version after [from "debian"], with a variable
    already set. *)
Definition based : Dsl.Builder :=
  Dsl.mkBuilder (mkConfig "debian" "" "" ("bash" :: nil) nil
                          ("HOME=/root" :: nil) true true true)
                "c1" "i1".

Definition layer : Layer.Layer := Layer.mkLayer "build" "/srv/build".

(** A hook that writes another image id into the builder and then fails. *)
Definition retagHook : Builder.Hook :=
  fun b _ =>
    Ret (Builder.set_config (set_Image "scratch" (Builder.config b)) b,
         ("", Some "copy failed")).

End Fixtures.

(** * Properties *)

Section ProgFacts.

Context {E : Type -> Type}.

Lemma path_bind {A B : Type} (p : Prog E A) (f : A -> Prog E B) tr1 tr2 a b :
  Path p tr1 a -> Path (f a) tr2 b -> Path (bind p f) (tr1 ++ tr2)%list b.
Proof.
  revert tr1. induction p as [a0 | R e k IH]; simpl; intros tr1 Hp Hf.
  - destruct Hp as [-> ->]. exact Hf.
  - destruct Hp as (r & tr' & -> & Hk).
    exists r, (tr' ++ tr2)%list. split; [reflexivity | eauto].
Qed.

Lemma path_bind_inv {A B : Type} (p : Prog E A) (f : A -> Prog E B) tr b :
  Path (bind p f) tr b ->
  exists tr1 tr2 a, tr = (tr1 ++ tr2)%list /\ Path p tr1 a /\ Path (f a) tr2 b.
Proof.
  revert tr. induction p as [a0 | R e k IH]; simpl; intros tr H.
  - exists nil, tr, a0. auto.
  - destruct H as (r & tr' & -> & Hk).
    destruct (IH r _ Hk) as (tr1 & tr2 & a & -> & Hp & Hf).
    exists (Ev e r :: tr1), tr2, a. split; [reflexivity|]. split; [|exact Hf].
    exists r, tr1. auto.
Qed.

End ProgFacts.

Lemma path_lift {A : Type} (p : Prog Call A) tr a :
  Path p tr a -> Path (lift p) (map lift_event tr) a.
Proof.
  revert tr. induction p as [a0 | R c k IH]; simpl; intros tr H.
  - destruct H as [-> ->]. auto.
  - destruct H as (r & tr' & -> & Hk). exists r, (map lift_event tr'). auto.
Qed.

Lemma path_lift_inv {A : Type} (p : Prog Call A) tr a :
  Path (lift p) tr a -> exists trh, tr = map lift_event trh /\ Path p trh a.
Proof.
  revert tr. induction p as [a0 | R c k IH]; simpl; intros tr H.
  - destruct H as [-> ->]. exists nil. auto.
  - destruct H as (r & tr' & -> & Hk).
    destruct (IH r _ Hk) as (trh & -> & Hp).
    exists (Ev c r :: trh). split; [reflexivity|]. exists r, trh. auto.
Qed.

Lemma quiet_lift {A : Type} (p : Prog Call A) : quiet (lift p).
Proof. induction p; simpl; auto. Qed.

Lemma quiet_bind {A B : Type} (p : Prog Sys A) (f : A -> Prog Sys B) :
  quiet p -> (forall a, quiet (f a)) -> quiet (bind p f).
Proof.
  induction p as [a | R e k IH]; simpl; intros Hp Hf; auto.
  destruct Hp as [He Hk]. split; auto.
Qed.

Section ExecFacts.

Context {W : Type}.
Variable handle : forall R : Type, Call R -> W -> R * W.

Lemma exec_bind {A B : Type} (p : Prog Sys A) (f : A -> Prog Sys B) s :
  exec handle (bind p f) s =
  exec handle (f (fst (exec handle p s))) (snd (exec handle p s)).
Proof.
  revert s. induction p as [a | R e k IH]; simpl; intros s; auto.
  destruct (step handle e s) as [r s']. apply IH.
Qed.

Lemma exec_call {R : Type} (e : Sys R) s :
  exec handle (call e) s = step handle e s.
Proof. unfold call. simpl. destruct (step handle e s); reflexivity. Qed.

Lemma deliver_watching id s : watching id s -> watching id (deliver handle s).
Proof.
  unfold watching, deliver. intros H.
  destruct (watcher s) as [x|] eqn:Hw; [|auto].
  destruct (countdown s) as [[|n]|]; simpl; rewrite ?Hw; auto.
Qed.

Lemma exec_quiet_watching {A : Type} (p : Prog Sys A) id s :
  quiet p -> watching id s -> watching id (snd (exec handle p s)).
Proof.
  revert s. induction p as [a | R e k IH]; simpl; intros s Hq Hw; auto.
  destruct Hq as [He Hk]. destruct e as [c | sg]; [|contradiction].
  unfold step. pose proof (deliver_watching id s Hw) as Hd.
  destruct (handle R c (world (deliver handle s))) as [r w].
  apply IH; auto.
Qed.

End ExecFacts.

Module BuilderFacts.

Import Builder.

Section Commit.

Variable Getenv : string -> string.

Lemma resetConfig_image b : Image (config (resetConfig b)) = Image (config b).
Proof. reflexivity. Qed.

Lemma commit_tail_path cacheKey id b cresp cerr rerr :
  exists res,
    Path (commit_tail cacheKey id b)
         (tail_events cacheKey id b cresp cerr rerr) res /\
    (cerr = None -> rerr = None ->
     res = (set_config (set_Image (CommitID cresp) (config (resetConfig b)))
                       (resetConfig b), None)) /\
    (forall e, cerr = Some e ->
     res = (resetConfig b, Some ("Error during commit: " ++ e))) /\
    (forall e, cerr = None -> rerr = Some e ->
     res = (resetConfig b,
            Some ("Could not remove intermediate container "
                    ++ quoted id ++ ": " ++ e))).
Proof.
  unfold commit_tail, tail_events, call. simpl.
  destruct cerr as [e|]; [|destruct rerr as [e|]];
    eexists; (split; [eexists; eexists; split; [reflexivity|]; simpl|]).
  - split; reflexivity.
  - repeat split; try discriminate. intros e' [= ->]. reflexivity.
  - eexists; eexists; split; [reflexivity|]. simpl. split; reflexivity.
  - repeat split; try discriminate. intros e' _ [= ->]. reflexivity.
  - eexists; eexists; split; [reflexivity|]. simpl. split; reflexivity.
  - repeat split; discriminate.
Qed.

Lemma commit_tail_inv cacheKey id b tr res :
  Path (commit_tail cacheKey id b) tr res ->
  exists cresp cerr rerr,
    tr = tail_events cacheKey id b cresp cerr rerr /\
    match cerr, rerr with
    | None, None =>
      res = (set_config (set_Image (CommitID cresp) (config (resetConfig b)))
                        (resetConfig b), None)
    | _, _ => fst res = resetConfig b /\ snd res <> None
    end.
Proof.
  unfold commit_tail, tail_events, call. simpl.
  intros ([cresp cerr] & tr' & -> & H). simpl in H.
  destruct cerr as [e|]; simpl in H.
  - destruct H as [-> <-]. exists cresp, (Some e), None.
    split; [reflexivity|]. split; [reflexivity|discriminate].
  - destruct H as (rerr & tr'' & -> & H). simpl in H.
    exists cresp, None, rerr.
    destruct rerr as [e|]; simpl in H; destruct H as [-> <-];
      (split; [reflexivity|]); [split; [reflexivity|discriminate] | reflexivity].
Qed.

Lemma commit_path cacheKey hook b id trb res r :
  Path (commit_body Getenv (startKey Getenv cacheKey) hook id b) trb res ->
  Path (commit Getenv cacheKey hook b)
       (opening b id ++ trb ++ closing id r)%list res.
Proof.
  intros Hb. unfold commit, createEmptyContainer, call, opening. simpl.
  eexists (id, None), _. split; [reflexivity|]. simpl.
  eexists tt, _. split; [reflexivity|].
  apply path_bind with (a := res); [exact Hb|]. simpl.
  eexists r, _. split; [reflexivity|]. simpl.
  eexists tt, _. split; [reflexivity|]. simpl. auto.
Qed.

Lemma commit_path_inv cacheKey hook b tr res :
  Path (commit Getenv cacheKey hook b) tr res ->
  (exists id e,
      tr = Ev (Run (ContainerCreate (config b))) (id, Some e) :: nil
      /\ res = (b, Some e))
  \/
  (exists id trb r,
      tr = (opening b id ++ trb ++ closing id r)%list
      /\ Path (commit_body Getenv (startKey Getenv cacheKey) hook id b) trb res).
Proof.
  unfold commit, createEmptyContainer, call, opening. simpl.
  intros ([id [e|]] & tr' & -> & H); simpl in H.
  - destruct H as [-> <-]. left. eauto.
  - right. destruct H as ([] & tr1 & -> & H).
    apply path_bind_inv in H. destruct H as (trb & tr2 & a & -> & Hb & H).
    simpl in H. destruct H as (r & tr3 & -> & H). simpl in H.
    destruct H as ([] & tr4 & -> & H). simpl in H. destruct H as [-> ->].
    exists id, trb, r. split; [reflexivity | exact Hb].
Qed.

Lemma commit_body_hook_failed cacheKey h b id trh b1 tmp e :
  Path (h b id) trh (b1, (tmp, Some e)) ->
  Path (commit_body Getenv cacheKey (Some h) id b)
       (map lift_event trh) (b1, Some e).
Proof.
  intros Hh. unfold commit_body.
  rewrite <- (app_nil_r (map lift_event trh)).
  eapply path_bind; [apply path_lift; exact Hh|]. simpl. auto.
Qed.

(** The key under which the container is committed. *)
Lemma commit_body_hook_returned cacheKey hook b id trh b1 tmp tr res :
  hook_returns hook b id trh b1 tmp ->
  Path (commit_tail
          (if nonempty tmp && (Getenv "NO_CACHE" =? "") then tmp else cacheKey)
          id b1) tr res ->
  Path (commit_body Getenv cacheKey hook id b)
       (map lift_event trh ++ tr)%list res.
Proof.
  intros Hh Ht. unfold commit_body. destruct hook as [h|]; simpl in Hh.
  - eapply path_bind; [apply path_lift; exact Hh|]. simpl. exact Ht.
  - destruct Hh as (-> & -> & ->). simpl in *. exact Ht.
Qed.

Lemma commit_body_inv cacheKey hook b id tr res :
  Path (commit_body Getenv cacheKey hook id b) tr res ->
  (exists h trh b1 tmp e,
      hook = Some h /\ Path (h b id) trh (b1, (tmp, Some e))
      /\ tr = map lift_event trh /\ res = (b1, Some e))
  \/
  (exists trh b1 tmp trt,
      hook_returns hook b id trh b1 tmp
      /\ tr = (map lift_event trh ++ trt)%list
      /\ Path (commit_tail
                 (if nonempty tmp && (Getenv "NO_CACHE" =? "")
                  then tmp else cacheKey) id b1) trt res).
Proof.
  unfold commit_body. destruct hook as [h|]; intros H.
  - apply path_bind_inv in H.
    destruct H as (tr1 & tr2 & [b1 [tmp err]] & -> & Hl & H).
    apply path_lift_inv in Hl. destruct Hl as (trh & -> & Hh).
    destruct err as [e|]; simpl in H.
    + destruct H as [-> <-]. left. exists h, trh, b1, tmp, e.
      rewrite app_nil_r. auto.
    + right. exists trh, b1, tmp, tr2. simpl. auto.
  - right. exists nil, b, "", tr. simpl. auto.
Qed.

Lemma quiet_commit_tail cacheKey id b : quiet (commit_tail cacheKey id b).
Proof.
  unfold commit_tail, call. simpl. split; [exact I|].
  intros [cresp [e|]]; simpl; [exact I|].
  split; [exact I|]. intros [e|]; simpl; exact I.
Qed.

Lemma quiet_commit_body cacheKey hook id b :
  quiet (commit_body Getenv cacheKey hook id b).
Proof.
  unfold commit_body. destruct hook as [h|].
  - apply quiet_bind; [exact (quiet_lift (h b id))|].
    intros [b1 [tmp [e|]]]; cbv beta iota; [exact I | apply quiet_commit_tail].
  - apply quiet_commit_tail.
Qed.

End Commit.

(** Every run against a runtime follows one of the program's paths. *)
Lemma exec_path {W A : Type} (handle : forall R : Type, Call R -> W -> R * W)
    (p : Prog Sys A) (s : Machine) :
  exists tr, Path p tr (fst (exec handle p s)).
Proof.
  revert s. induction p as [a | R e k IH]; simpl; intros s.
  - exists nil. auto.
  - destruct (step handle e s) as [r s'] eqn:Hs.
    destruct (IH r s') as (tr & Htr).
    exists (Ev e r :: tr), r, tr. auto.
Qed.

Section Removal.

Context {W : Type}.
Variable handle : forall R : Type, Call R -> W -> R * W.
Variable present : string -> W -> bool.
Hypothesis forced_removal :
  forall id w, present id (snd (handle _ (ContainerRemove id true) w)) = false.
Variable Getenv : string -> string.

(** The deferred function, run in any state the body may leave. *)
Lemma deferred_removes {A : Type} (res : A) id (m : Machine) :
  watching id m ->
  let m' := snd (exec handle
                   (_ <- call (Run (ContainerRemove id true)) ;;
                    _ <- call (Signal Reset) ;; Ret res) m) in
  present id (world m') = false /\ watcher m' = None
  /\ fst (exec handle
            (_ <- call (Run (ContainerRemove id true)) ;;
             _ <- call (Signal Reset) ;; Ret res) m) = res.
Proof.
  intros Hw. unfold call. simpl.
  pose proof (deliver_watching handle id m Hw) as Hd.
  set (m1 := deliver handle m) in *.
  pose proof (forced_removal id (world m1)) as Hgone.
  destruct (handle error (ContainerRemove id true) (world m1)) as [r w4].
  simpl in Hgone. simpl. unfold deliver. simpl.
  destruct Hd as [Hd | Hd]; rewrite Hd.
  - destruct (countdown m1) as [[|n]|]; simpl; auto.
  - simpl. auto.
Qed.

Lemma commit_exec_created cacheKey hook b w sig id w1 :
  handle _ (ContainerCreate (config b)) w = ((id, None), w1) ->
  let m := snd (exec handle (commit Getenv cacheKey hook b) (boot w sig)) in
  present id (world m) = false /\ watcher m = None.
Proof.
  intros Hc. unfold commit.
  change (lift (createEmptyContainer b))
    with (call (Run (ContainerCreate (config b)))).
  cbv zeta. rewrite exec_bind, exec_call.
  assert (Hs : step handle (Run (ContainerCreate (config b))) (boot w sig)
               = ((id, None), mkMachine w1 None sig)).
  { unfold step, boot, deliver. simpl. rewrite Hc. reflexivity. }
  rewrite Hs. cbn [fst snd]. rewrite exec_bind, exec_call.
  cbn [step deliver fst snd world watcher countdown].
  rewrite exec_bind.
  match goal with
  | |- context [exec handle (commit_body ?g ?k ?h ?i ?bb) ?m0] =>
      pose proof (exec_quiet_watching handle (commit_body g k h i bb) id m0
                    (quiet_commit_body g k h i bb)) as Hw;
      set (body := exec handle (commit_body g k h i bb) m0) in *
  end.
  assert (Hw' : watching id (snd body)) by (apply Hw; left; reflexivity).
  destruct (deferred_removes (fst body) id (snd body) Hw') as (H1 & H2 & _).
  split; assumption.
Qed.

Lemma commit_exec_not_created cacheKey hook b w sig id e w1 :
  handle _ (ContainerCreate (config b)) w = ((id, Some e), w1) ->
  exec handle (commit Getenv cacheKey hook b) (boot w sig)
  = ((b, Some e), mkMachine w1 None sig).
Proof.
  intros Hc. unfold commit, createEmptyContainer, call. simpl.
  unfold step, boot, deliver. simpl. rewrite Hc. reflexivity.
Qed.

End Removal.

Section Cache.

Variable Getenv : string -> string.

(** Candidates that do not match are inspected and passed over; images with
    another parent are passed over without a call. *)
Lemma scanImages_skips cacheKey b pre :
  forall cands rest tr res,
    map fst cands = children b pre ->
    Forall (fun c => Comment (snd c) <> cacheKey) cands ->
    Path (scanImages cacheKey rest b) tr res ->
    Path (scanImages cacheKey (pre ++ rest) b) (inspections cands ++ tr)%list res.
Proof.
  induction pre as [|x pre IH]; intros cands rest tr res Hc Hn Hp.
  - destruct cands; [exact Hp | discriminate].
  - unfold children in Hc. simpl in Hc. simpl.
    destruct (ParentID x =? Image (config b)) eqn:Hx.
    + destruct cands as [|[y insp] cands]; [discriminate|].
      simpl in Hc. injection Hc as Hy Hc. subst y.
      inversion Hn as [|? ? Hhd Htl]; subst. simpl in Hhd.
      unfold call. simpl.
      exists (insp, None), (inspections cands ++ tr)%list.
      split; [reflexivity|]. simpl.
      apply String.eqb_neq in Hhd. rewrite Hhd. apply IH; assumption.
    + apply IH; assumption.
Qed.

Lemma consultCache_lists cacheKey b images tr res :
  Getenv "NO_CACHE" = "" ->
  Image (config b) <> "" ->
  Path (scanImages cacheKey images b) tr res ->
  Path (consultCache Getenv cacheKey b) (Ev ImageList (images, None) :: tr) res.
Proof.
  intros He Hi Hp. unfold consultCache, nonempty. rewrite He.
  apply String.eqb_neq in Hi. rewrite Hi. simpl.
  exists (images, None), tr. auto.
Qed.

End Cache.

Lemma sim_forced_removal id w :
  Sim.present id (snd (Sim.handle _ (ContainerRemove id true) w)) = false.
Proof.
  simpl. destruct (Sim.present id w) eqn:Hp; simpl; [|exact Hp].
  unfold Sim.present, Sim.without. simpl.
  induction (Sim.containers w) as [|x l IH]; simpl; [reflexivity|].
  destruct (id =? x) eqn:Hx; simpl; [exact IH|]. rewrite Hx. exact IH.
Qed.

(** C1. Every call to [commit] that obtained a container ends with the forced
    removal of that container followed by [signal.Reset], on the successful
    return and on every failing one, whatever the hook did and whenever an
    interrupt is delivered to the watcher; the answer of that removal is
    discarded, so running it against a container that is already gone changes
    nothing in what [commit] returns.  Against any runtime whose forced
    removal makes the container absent, the container is absent when the call
    returns and no watcher is left registered.  When the creation itself
    fails, [commit] returns that error and does nothing else. *)
Theorem commit_removes_container
    (W : Type) (handle : forall R : Type, Call R -> W -> R * W)
    (present : string -> W -> bool) (Getenv : string -> string)
    (cacheKey : string) (hook : option Hook) (b : Builder)
    (w : W) (sig : option nat) :
  (forall id w,
      present id (snd (handle _ (ContainerRemove id true) w)) = false) ->
  let created := handle _ (ContainerCreate (config b)) w in
  let run := exec handle (commit Getenv cacheKey hook b) (boot w sig) in
  match snd (fst created) with
  | None =>
    present (fst (fst created)) (world (snd run)) = false
    /\ watcher (snd run) = None
  | Some e => run = ((b, Some e), mkMachine (snd created) None sig)
  end
  /\
  forall tr res,
    Path (commit Getenv cacheKey hook b) tr res ->
    (exists id e,
        tr = Ev (Run (ContainerCreate (config b))) (id, Some e) :: nil
        /\ res = (b, Some e))
    \/
    (exists id trb r,
        tr = (opening b id ++ trb ++ closing id r)%list
        /\ forall r',
            Path (commit Getenv cacheKey hook b)
                 (opening b id ++ trb ++ closing id r')%list res).
Proof.
  intros Hlaw. cbv zeta. split.
  - destruct (handle _ (ContainerCreate (config b)) w) as [[id [e|]] w1] eqn:Hc;
      simpl.
    + eapply commit_exec_not_created; eassumption.
    + eapply commit_exec_created; eassumption.
  - intros tr res H. apply commit_path_inv in H.
    destruct H as [H | (id & trb & r & -> & Hb)]; [left; exact H | right].
    exists id, trb, r. split; [reflexivity|].
    intros r'. apply commit_path. exact Hb.
Qed.

Lemma commit_removes_container_witness :
  Sim.present "c0"
    (world (snd (exec Sim.handle
                   (commit Sample.caching "run ls" (Some runHook) Sample.builder)
                   (boot (Sim.empty nil) (Some 2))))) = false.
Proof.
  exact (proj1 (proj1 (commit_removes_container
                         Sim.World Sim.handle Sim.present Sample.caching
                         "run ls" (Some runHook) Sample.builder
                         (Sim.empty nil) (Some 2) sim_forced_removal))).
Defined.

(** C5. When the hook returns an error, [commit] returns that error; besides
    the hook's own calls it has created the container, registered the
    watcher, force-removed the container and reset the signals, and it has
    made no commit call. *)
Theorem commit_hook_failure
    (Getenv : string -> string) (cacheKey : string) (h : Hook) (b : Builder)
    (id : string) (trh : list (Event Call)) (b1 : Builder) (tmp e : string)
    (r : error) :
  Path (h b id) trh (b1, (tmp, Some e)) ->
  Path (commit Getenv cacheKey (Some h) b)
       (opening b id ++ map lift_event trh ++ closing id r)%list
       (b1, Some e).
Proof.
  intros Hh. apply commit_path. apply commit_body_hook_failed with (tmp := tmp).
  exact Hh.
Qed.

Lemma commit_hook_failure_witness :
  Path (commit Sample.caching "run ls" (Some runHook) Sample.builder)
       (opening Sample.builder "c0"
        ++ map lift_event
             (Ev (ContainerAttach "c0") (mkHijacked "" None, Some "EOF") :: nil)
        ++ closing "c0" None)%list
       (Sample.builder, Some "Could not attach to container: EOF").
Proof.
  apply (commit_hook_failure Sample.caching "run ls" runHook Sample.builder
           "c0" _ Sample.builder "" _ None).
  simpl. eexists (_, Some "EOF"), nil. split; [reflexivity|]. simpl. auto.
Defined.

(** C3. With [NO_CACHE] set, whatever key the caller passes and whatever key
    the hook returns, the call [commit] makes to commit the container carries
    the empty comment; when the commit and the clean removal go through, the
    builder's image id is the committed image. *)
Theorem commit_no_cache_key
    (Getenv : string -> string) (cacheKey : string) (hook : option Hook)
    (b : Builder) (id : string) (trh : list (Event Call)) (b1 : Builder)
    (tmp : string) (cresp : CommitResponse) (cerr rerr r : error) :
  Getenv "NO_CACHE" <> "" ->
  hook_returns hook b id trh b1 tmp ->
  exists res,
    Path (commit Getenv cacheKey hook b)
         (opening b id
          ++ (map lift_event trh ++ tail_events "" id b1 cresp cerr rerr)
          ++ closing id r)%list res
    /\ (cerr = None -> rerr = None ->
        res = (set_config (set_Image (CommitID cresp)
                                     (config (resetConfig b1)))
                          (resetConfig b1), None)).
Proof.
  intros Hno Hh.
  destruct (commit_tail_path "" id b1 cresp cerr rerr) as (res & Hp & Hok & _).
  exists res. split; [|exact Hok].
  apply commit_path. eapply commit_body_hook_returned; [exact Hh|].
  apply String.eqb_neq in Hno. unfold startKey, nonempty. rewrite Hno. simpl.
  rewrite andb_false_r. exact Hp.
Qed.

Lemma commit_no_cache_key_witness :
  exists res,
    Path (commit Sample.bypass "copy a b"
                 (Some (Sample.keyHook "box:copy 00ff")) Sample.builder)
         (opening Sample.builder "c0"
          ++ (map lift_event nil
              ++ tail_events "" "c0" Sample.builder (mkCommitResponse "i0")
                             None None)
          ++ closing "c0" None)%list res
    /\ (@None string = None -> @None string = None ->
        res = (set_config (set_Image "i0" (config (resetConfig Sample.builder)))
                          (resetConfig Sample.builder), None)).
Proof.
  apply (commit_no_cache_key Sample.bypass "copy a b"
           (Some (Sample.keyHook "box:copy 00ff")) Sample.builder "c0" nil
           Sample.builder "box:copy 00ff" (mkCommitResponse "i0")
           None None None).
  - discriminate.
  - simpl. auto.
Defined.

(** C10, as the code has it.  [commit] itself writes the builder's image id
    in one place only, after every call has succeeded: the successful return
    finds it equal to the id the runtime answered to the commit call.  On an
    error return the image id is the one at entry, or, when a hook ran, the
    one the hook left in the builder it was handed.  So for a hook that
    leaves the image id alone (as [runHook] does, and as no hook at all does)
    every error return of [commit] finds the image id as it was at entry, in
    every run against a runtime and whenever the watcher fires. *)
Theorem commit_image_atomic
    (Getenv : string -> string) (cacheKey : string) (hook : option Hook)
    (b : Builder) :
  (forall tr b' e,
      Path (commit Getenv cacheKey hook b) tr (b', Some e) ->
      Image (config b') = Image (config b)
      \/ exists h id trh b1 r,
           hook = Some h /\ Path (h b id) trh (b1, r)
           /\ Image (config b') = Image (config b1))
  /\
  (forall tr b',
      Path (commit Getenv cacheKey hook b) tr (b', None) ->
      exists id cfg key cresp,
        In (Ev (Run (ContainerCommit id cfg key)) (cresp, None)) tr
        /\ Image (config b') = CommitID cresp)
  /\
  (keeps_image hook b ->
   (forall tr b' e,
       Path (commit Getenv cacheKey hook b) tr (b', Some e) ->
       Image (config b') = Image (config b))
   /\
   (forall (W : Type) (handle : forall R : Type, Call R -> W -> R * W)
           (w : W) (sig : option nat),
       let ret :=
         fst (exec handle (commit Getenv cacheKey hook b) (boot w sig)) in
       snd ret <> None -> Image (config (fst ret)) = Image (config b))).
Proof.
  assert (Herr : forall tr b' e,
    Path (commit Getenv cacheKey hook b) tr (b', Some e) ->
    Image (config b') = Image (config b)
    \/ exists h id trh b1 r,
         hook = Some h /\ Path (h b id) trh (b1, r)
         /\ Image (config b') = Image (config b1)).
  { intros tr b' e H. apply commit_path_inv in H.
    destruct H as [(id & e0 & -> & [= -> _]) | (id & trb & r & -> & Hb)];
      [left; reflexivity|].
    apply commit_body_inv in Hb.
    destruct Hb as [(h & trh & b1 & tmp & e0 & -> & Hh & -> & [= Hb1 _])
                   | (trh & b1 & tmp & trt & Hh & -> & Ht)].
    - right. exists h, id, trh, b1, (tmp, Some e0).
      rewrite Hb1. auto.
    - apply commit_tail_inv in Ht.
      destruct Ht as (cresp & cerr & rerr & -> & Hres).
      assert (Hb' : b' = resetConfig b1).
      { destruct cerr as [e1|]; [|destruct rerr as [e1|]]; simpl in Hres.
        - destruct Hres as [Hfst _]. exact Hfst.
        - destruct Hres as [Hfst _]. exact Hfst.
        - discriminate Hres. }
      subst b'. destruct hook as [h|]; simpl in Hh.
      + right. exists h, id, trh, b1, (tmp, None). auto.
      + destruct Hh as (_ & -> & _). left. reflexivity. }
  split; [exact Herr|]. split.
  - intros tr b' H. apply commit_path_inv in H.
    destruct H as [(id & e & -> & [=]) | (id & trb & r & -> & Hb)].
    apply commit_body_inv in Hb.
    destruct Hb as [(h & trh & b1 & tmp & e & -> & Hh & -> & [=])
                   | (trh & b1 & tmp & trt & Hh & -> & Ht)].
    apply commit_tail_inv in Ht.
    destruct Ht as (cresp & cerr & rerr & -> & Hres).
    destruct cerr as [e|]; [|destruct rerr as [e|]]; simpl in Hres.
    + destruct Hres as [_ Hsnd]. contradiction Hsnd. reflexivity.
    + destruct Hres as [_ Hsnd]. contradiction Hsnd. reflexivity.
    + injection Hres as ->. eexists _, _, _, cresp. split; [|reflexivity].
      apply in_or_app. right. apply in_or_app. left.
      apply in_or_app. right. left. reflexivity.
  - intros Hk.
    assert (Hpath : forall tr b' e,
      Path (commit Getenv cacheKey hook b) tr (b', Some e) ->
      Image (config b') = Image (config b)).
    { intros tr b' e H.
      destruct (Herr tr b' e H)
        as [Heq | (h & id & trh & b1 & r & -> & Hh & ->)]; [exact Heq|].
      simpl in Hk. eapply Hk. exact Hh. }
    split; [exact Hpath|].
    intros W handle w sig ret Hne.
    destruct (exec_path handle (commit Getenv cacheKey hook b) (boot w sig))
      as (tr & Htr).
    fold ret in Htr.
    destruct ret as [b' [e|]]; [|contradiction Hne; reflexivity].
    exact (Hpath tr b' e Htr).
Qed.

Lemma runHook_keeps_image b : keeps_image (Some runHook) b.
Proof.
  intros id trh b1 r. unfold runHook, call. simpl.
  intros ([resp [e|]] & t1 & -> & H); simpl in H.
  { destruct H as [_ [= <- _]]. reflexivity. }
  destruct H as ([e|] & t2 & -> & H); simpl in H.
  { destruct H as [_ [= <- _]]. reflexivity. }
  destruct (ReadErr resp) as [e|]; simpl in H.
  { destruct H as [_ [= <- _]]. reflexivity. }
  destruct H as ([stat [e|]] & t3 & -> & H); simpl in H.
  { destruct H as [_ [= <- _]]. reflexivity. }
  destruct (negb (stat =? 0)%Z); simpl in H;
    destruct H as [_ [= <- _]]; reflexivity.
Qed.

Lemma commit_image_atomic_witness :
  Image (config (fst (fst (exec Sim.handle
                             (commit Sample.caching "run ls" (Some runHook)
                                     Sample.builder)
                             (boot (Sim.empty ("commit" :: nil)) None)))))
  = "debian".
Proof.
  apply (proj2 (proj2 (proj2 (commit_image_atomic Sample.caching "run ls"
                                (Some runHook) Sample.builder))
                      (runHook_keeps_image Sample.builder))
               Sim.World Sim.handle (Sim.empty ("commit" :: nil)) None).
  discriminate.
Defined.

(** C10, as the claim has it, fails: a hook receives the builder itself.  A
    hook that writes another image id into it and then fails makes [commit]
    return the hook's error with that image id in the builder, not the one
    at entry. *)
Lemma commit_image_changed_by_failing_hook :
  Path (commit Sample.caching "copy" (Some Fixtures.retagHook) Sample.builder)
       (opening Sample.builder "c0" ++ nil ++ closing "c0" None)%list
       (set_config (set_Image "scratch" (config Sample.builder)) Sample.builder,
        Some "copy failed")
  /\ fst (exec Sim.handle
            (commit Sample.caching "copy" (Some Fixtures.retagHook)
                    Sample.builder)
            (boot (Sim.empty nil) None))
     = (set_config (set_Image "scratch" (config Sample.builder)) Sample.builder,
        Some "copy failed")
  /\ Image (config Sample.builder) = "debian"
  /\ Image (config (set_config (set_Image "scratch" (config Sample.builder))
                               Sample.builder))
     <> Image (config Sample.builder).
Proof.
  split; [|split; [reflexivity | split; [reflexivity | discriminate]]].
  apply commit_path.
  apply (commit_body_hook_failed Sample.caching
           (startKey Sample.caching "copy") Fixtures.retagHook Sample.builder
           "c0" nil _ "" "copy failed").
  simpl. auto.
Qed.

(** C2. With caching on and a current image set, [consultCache] lists the
    images and inspects, in listing order, only those whose parent is the
    current image; the first one whose comment equals the key ends the
    search: its configuration becomes the builder's, with the image id set to
    the candidate's id and the builder's canonical fields taken from it, and
    the answer is a hit. *)
Theorem consultCache_first_match
    (Getenv : string -> string) (cacheKey : string) (b : Builder)
    (pre : list ImageSummary) (img : ImageSummary) (post : list ImageSummary)
    (cands : list (ImageSummary * ImageInspect)) (inspect : ImageInspect) :
  Getenv "NO_CACHE" = "" ->
  Image (config b) <> "" ->
  map fst cands = children b pre ->
  Forall (fun c => Comment (snd c) <> cacheKey) cands ->
  ParentID img = Image (config b) ->
  Comment inspect = cacheKey ->
  let b' := adopt inspect (ID img) b in
  Path (consultCache Getenv cacheKey b)
       (Ev ImageList ((pre ++ img :: post)%list, None)
        :: inspections cands
        ++ Ev (ImageInspectWithRaw (ID img)) (inspect, None) :: nil)%list
       (b', (true, None))
  /\ config b' = set_Image (ID img) (InspectConfig inspect)
  /\ user b' = User (InspectConfig inspect)
  /\ workdir b' = WorkingDir (InspectConfig inspect)
  /\ cmd b' = Cmd (InspectConfig inspect)
  /\ entrypoint b' = Entrypoint (InspectConfig inspect).
Proof.
  intros He Hi Hc Hn Hp Hk. cbv zeta. split; [|repeat split].
  apply consultCache_lists; [assumption..|].
  apply scanImages_skips; [assumption..|].
  simpl. apply String.eqb_eq in Hp. rewrite Hp. unfold call. simpl.
  exists (inspect, None), nil. split; [reflexivity|]. simpl.
  apply String.eqb_eq in Hk. rewrite Hk. simpl. auto.
Qed.

Lemma consultCache_first_match_witness :
  Path (consultCache Sample.caching "run ls" Sample.builder)
       (Ev ImageList (map fst (Sim.images Sample.layered), None)
        :: Ev (ImageInspectWithRaw "i0")
              (mkImageInspect "run pwd" Sample.debian, None)
        :: Ev (ImageInspectWithRaw "i2")
              (snd (nth 2 (Sim.images Sample.layered)
                        (mkImageSummary "" "", mkImageInspect "" Sim.noConfig)),
               None)
        :: nil)
       (mkBuilder (mkConfig "i2" "/work" "root" ("ls" :: nil) ("sh" :: nil) nil
                            true true true)
                  "/work" "root" ("ls" :: nil) ("sh" :: nil),
        (true, None)).
Proof.
  apply (proj1 (consultCache_first_match Sample.caching "run ls" Sample.builder
           (mkImageSummary "i0" "debian" :: mkImageSummary "i1" "other" :: nil)
           (mkImageSummary "i2" "debian") nil
           ((mkImageSummary "i0" "debian",
             mkImageInspect "run pwd" Sample.debian) :: nil)
           (mkImageInspect "run ls"
              (mkConfig "" "/work" "root" ("ls" :: nil) ("sh" :: nil) nil
                        true true true))
           eq_refl ltac:(discriminate) eq_refl
           ltac:(repeat constructor; discriminate) eq_refl eq_refl)).
Defined.

(** C4. With [NO_CACHE] set, or with no current image, [consultCache] is a
    plain return of (no hit, no error): it calls nothing.  With caching on and
    a current image, a failing image listing, or a failing inspection of a
    candidate reached by the search, ends it with (no hit, that error). *)
Theorem consultCache_misses
    (Getenv : string -> string) (cacheKey : string) (b : Builder) :
  (Getenv "NO_CACHE" <> "" \/ Image (config b) = "" ->
   consultCache Getenv cacheKey b = Ret (b, (false, None)))
  /\
  (Getenv "NO_CACHE" = "" -> Image (config b) <> "" ->
   (forall images e,
       Path (consultCache Getenv cacheKey b)
            (Ev ImageList (images, Some e) :: nil) (b, (false, Some e)))
   /\
   (forall pre img post cands inspect e,
       map fst cands = children b pre ->
       Forall (fun c => Comment (snd c) <> cacheKey) cands ->
       ParentID img = Image (config b) ->
       Path (consultCache Getenv cacheKey b)
            (Ev ImageList ((pre ++ img :: post)%list, None)
             :: inspections cands
             ++ Ev (ImageInspectWithRaw (ID img)) (inspect, Some e) :: nil)%list
            (b, (false, Some e)))).
Proof.
  split.
  - intros [Hno | Him]; unfold consultCache, nonempty.
    + apply String.eqb_neq in Hno. rewrite Hno. reflexivity.
    + rewrite Him. simpl. destruct (Getenv "NO_CACHE" =? ""); reflexivity.
  - intros He Hi. split.
    + intros images e. unfold consultCache, nonempty. rewrite He.
      apply String.eqb_neq in Hi. rewrite Hi. simpl.
      exists (images, Some e), nil. simpl. auto.
    + intros pre img post cands inspect e Hc Hn Hp.
      apply consultCache_lists; [assumption..|].
      apply scanImages_skips; [assumption..|].
      simpl. apply String.eqb_eq in Hp. rewrite Hp. unfold call. simpl.
      exists (inspect, Some e), nil. split; [reflexivity|]. simpl. auto.
Qed.

Lemma consultCache_misses_witness :
  consultCache Sample.bypass "run ls" Sample.builder
  = Ret (Sample.builder, (false, None))
  /\ Path (consultCache Sample.caching "run ls" Sample.builder)
          (Ev ImageList (nil, Some "connection refused") :: nil)
          (Sample.builder, (false, Some "connection refused"))
  /\ Path (consultCache Sample.caching "run ls" Sample.builder)
          (Ev ImageList
              (mkImageSummary "i1" "other" :: mkImageSummary "i2" "debian"
               :: nil, None)
           :: Ev (ImageInspectWithRaw "i2")
                 (mkImageInspect "" Sim.noConfig, Some "No such image: i2")
           :: nil)
          (Sample.builder, (false, Some "No such image: i2")).
Proof.
  pose proof (consultCache_misses Sample.bypass "run ls" Sample.builder) as Hb.
  pose proof (consultCache_misses Sample.caching "run ls" Sample.builder) as Hc.
  split; [apply (proj1 Hb); left; discriminate|].
  destruct (proj2 Hc eq_refl ltac:(discriminate)) as [Hl Hi].
  split; [apply Hl|].
  apply (Hi (mkImageSummary "i1" "other" :: nil)
            (mkImageSummary "i2" "debian") nil nil
            (mkImageInspect "" Sim.noConfig) "No such image: i2");
    [reflexivity | constructor | reflexivity].
Defined.

End BuilderFacts.

Module DslFacts.

Import Dsl.

(** C9. While [imageID] is empty, [run] is a plain return of the usage
    message: it leaves the builder as it is and calls nothing, the runtime
    included. *)
Theorem run_requires_image
    (commit : Builder -> Prog Call (Builder * (string * error)))
    (args : list Value) (b : Builder) :
  imageID b = "" ->
  run commit args b = Ret (b, (Some (VString usage_from_first), None)).
Proof. intros H. unfold run. rewrite H. reflexivity. Qed.

Lemma run_requires_image_witness :
  run Sample.commit0 (VString "ls" :: nil) Sample.blank
  = Ret (Sample.blank, (Some (VString usage_from_first), None)).
Proof.
  apply (run_requires_image Sample.commit0 (VString "ls" :: nil) Sample.blank).
  reflexivity.
Defined.

(** The builder a scope hands to its block and the builder it leaves. *)
Lemma user_path arg0 (blk : Block) b tr b1 val err :
  Path (blk arg0 (set_config (set_User (to_s arg0) (config b)) b)) tr
       (b1, (val, err)) ->
  exists ret,
    Path (user arg0 blk b) tr
         (set_id "" (set_config (set_User "" (config b1)) b1), ret).
Proof.
  intros H. unfold user.
  destruct err as [e|]; eexists;
    (rewrite <- (app_nil_r tr); eapply path_bind; [exact H|]); simpl; auto.
Qed.

Lemma workdir_path arg0 (blk : Block) b tr b1 val err :
  Path (blk arg0 (set_config (set_WorkingDir (to_s arg0) (config b)) b)) tr
       (b1, (val, err)) ->
  exists ret,
    Path (workdir arg0 blk b) tr
         (set_id "" (set_config (set_WorkingDir "" (config b1)) b1), ret).
Proof.
  intros H. unfold workdir.
  destruct err as [e|]; eexists;
    (rewrite <- (app_nil_r tr); eapply path_bind; [exact H|]); simpl; auto.
Qed.

(** C8, as the code has it.  A scoped step starts its block with the field
    set to the step's argument.  When the block is done, with a value or with
    an error, and also when it holds no step, the field is the empty string
    and the tracked id is the empty string, whatever the block left there and
    whatever the field held before the scope. *)
Theorem scope_exit_clears
    (arg0 : Value) (blk : Block) (b : Builder) (tr : list (Event Call))
    (b1 : Builder) (val : option Value) (err : error) :
  (Path (blk arg0 (set_config (set_User (to_s arg0) (config b)) b)) tr
        (b1, (val, err)) ->
   exists b' ret,
     Path (user arg0 blk b) tr (b', ret)
     /\ User (config b') = "" /\ id b' = "")
  /\
  (Path (blk arg0 (set_config (set_WorkingDir (to_s arg0) (config b)) b)) tr
        (b1, (val, err)) ->
   exists b' ret,
     Path (workdir arg0 blk b) tr (b', ret)
     /\ WorkingDir (config b') = "" /\ id b' = "")
  /\
  (exists b', user arg0 emptyBlock b = Ret (b', (Some VNil, None))
              /\ User (config b') = "" /\ id b' = "")
  /\
  (exists b', workdir arg0 emptyBlock b = Ret (b', (Some VNil, None))
              /\ WorkingDir (config b') = "" /\ id b' = "").
Proof.
  repeat split.
  - intros H. destruct (user_path _ _ _ _ _ _ _ H) as (ret & Hp).
    eexists _, ret. split; [exact Hp|]. split; reflexivity.
  - intros H. destruct (workdir_path _ _ _ _ _ _ _ H) as (ret & Hp).
    eexists _, ret. split; [exact Hp|]. split; reflexivity.
  - eexists. split; [reflexivity|]. split; reflexivity.
  - eexists. split; [reflexivity|]. split; reflexivity.
Qed.

Lemma scope_exit_clears_witness :
  exists b' ret,
    Path (user (VString "root") emptyBlock Sample.scoped) nil (b', ret)
    /\ User (config b') = "" /\ id b' = "".
Proof.
  apply (proj1 (scope_exit_clears (VString "root") emptyBlock Sample.scoped nil
                  (set_config (set_User "root" (config Sample.scoped))
                              Sample.scoped)
                  (Some VNil) None)).
  simpl. auto.
Defined.

(** C8, as the claim has it, fails: inside a [user "deploy"] scope, a nested
    [user "root"] scope with an empty block leaves the field empty, not
    ["deploy"]; the steps that follow in the enclosing block no longer see the
    user their scope set. *)
Lemma scope_exit_loses_prior_value :
  exists b',
    user (VString "root") emptyBlock Sample.scoped
    = Ret (b', (Some VNil, None))
    /\ User (config Sample.scoped) = "deploy"
    /\ User (config b') <> User (config Sample.scoped).
Proof.
  eexists. split; [reflexivity|]. split; [reflexivity|]. discriminate.
Qed.

End DslFacts.

Module FilesFacts.

Import Files.

(** Induction on a tree, with the property available for every entry of a
    directory. *)
Lemma Node_ind (P : Node -> Prop) :
  (forall st data, P (File st data)) ->
  (forall st entries, Forall (fun e => P (snd e)) entries -> P (Dir st entries)) ->
  forall n, P n.
Proof.
  intros HF HD. fix IH 1. intros [st data | st entries].
  - apply HF.
  - apply HD. induction entries as [|[name c] entries IHe]; constructor.
    + apply IH.
    + exact IHe.
Qed.

Lemma encode_byte_hex (x : byte) :
  isHex (hexdigit (Byte.to_N x / 16)) && isHex (hexdigit (Byte.to_N x mod 16))
  = true.
Proof. destruct x; vm_compute; reflexivity. Qed.

Lemma EncodeToString_hex (src : list byte) :
  allHex (EncodeToString src) = true
  /\ String.length (EncodeToString src) = 2 * length src.
Proof.
  induction src as [|x rest [IH1 IH2]]; [split; reflexivity|].
  split.
  - cbn [EncodeToString allHex]. rewrite andb_assoc, encode_byte_hex. exact IH1.
  - cbn [EncodeToString String.length length]. rewrite IH2. lia.
Qed.

Lemma decode_byte (x : byte) :
  fromHexChar (hexdigit (Byte.to_N x / 16)) = Some (Byte.to_N x / 16)%N
  /\ fromHexChar (hexdigit (Byte.to_N x mod 16)) = Some (Byte.to_N x mod 16)%N
  /\ Byte.of_N (Byte.to_N x / 16 * 16 + Byte.to_N x mod 16) = Some x.
Proof. destruct x; vm_compute; repeat split; reflexivity. Qed.

Lemma decode_encode (src : list byte) :
  DecodeString (EncodeToString src) = Some src.
Proof.
  induction src as [|x rest IH]; [reflexivity|].
  cbn [EncodeToString DecodeString].
  destruct (decode_byte x) as (Hh & Hl & Hx).
  rewrite Hh, Hl, IH, Hx. reflexivity.
Qed.

(** The two digits written for a byte, read off the digit table of
    [encoding/hex]. *)
Lemma hexdigit_table (x : byte) :
  Some (hexdigit (Byte.to_N x / 16))
  = String.get (N.to_nat (Byte.to_N x / 16)) "0123456789abcdef"
  /\ Some (hexdigit (Byte.to_N x mod 16))
     = String.get (N.to_nat (Byte.to_N x mod 16)) "0123456789abcdef".
Proof. destruct x; vm_compute; split; reflexivity. Qed.

Lemma EncodeToString_digits (src : list byte) :
  forall i x,
    nth_error src i = Some x ->
    String.get (2 * i) (EncodeToString src)
    = String.get (N.to_nat (Byte.to_N x / 16)) "0123456789abcdef"
    /\ String.get (2 * i + 1) (EncodeToString src)
       = String.get (N.to_nat (Byte.to_N x mod 16)) "0123456789abcdef".
Proof.
  induction src as [|y rest IH]; intros i x Hx.
  - destruct i; discriminate.
  - destruct i as [|i]; simpl in Hx.
    + injection Hx as ->. destruct (hexdigit_table x) as [Hh Hl].
      cbn [EncodeToString]. split; [exact Hh | exact Hl].
    + destruct (IH i x Hx) as [Hh Hl]. cbn [EncodeToString].
      replace (2 * S i) with (S (S (2 * i))) by lia.
      replace (S (S (2 * i)) + 1) with (S (S (2 * i + 1))) by lia.
      split; [exact Hh | exact Hl].
Qed.

(** C6. For a file that can be read, [sumFile] returns, without error, the
    text [box:copy ] followed by the hexadecimal rendering of the digest of
    the file's bytes: for the digest byte at position [i], the characters at
    [2i] and [2i+1] are the digits of [0123456789abcdef] for its high and its
    low half, nothing follows the last byte, and the text reads back to the
    digest.  Two files with the same bytes get the same key, whatever their
    paths, modes and modification times, and whatever file systems they live
    in. *)
Theorem sumFile_content_only
    (Sum512_256 : list byte -> list byte) (fs1 fs2 : FS) (p1 p2 : string)
    (st1 st2 : Stat) (data : list byte) :
  resolve fs1 p1 = Some (File st1 data) ->
  resolve fs2 p2 = Some (File st2 data) ->
  access st1 = true ->
  access st2 = true ->
  sumFile Sum512_256 fs1 p1
  = ("box:copy " ++ EncodeToString (Sum512_256 data), None)
  /\ sumFile Sum512_256 fs2 p2 = sumFile Sum512_256 fs1 p1
  /\ allHex (EncodeToString (Sum512_256 data)) = true
  /\ String.length (EncodeToString (Sum512_256 data))
     = 2 * length (Sum512_256 data)
  /\ DecodeString (EncodeToString (Sum512_256 data)) = Some (Sum512_256 data)
  /\ (forall i x,
        nth_error (Sum512_256 data) i = Some x ->
        String.get (2 * i) (EncodeToString (Sum512_256 data))
        = String.get (N.to_nat (Byte.to_N x / 16)) "0123456789abcdef"
        /\ String.get (2 * i + 1) (EncodeToString (Sum512_256 data))
           = String.get (N.to_nat (Byte.to_N x mod 16)) "0123456789abcdef").
Proof.
  intros H1 H2 A1 A2. unfold sumFile. rewrite H1, H2. simpl.
  rewrite A1, A2.
  split; [reflexivity|]. split; [reflexivity|].
  split; [apply EncodeToString_hex|]. split; [apply EncodeToString_hex|].
  split; [apply decode_encode | apply EncodeToString_digits].
Qed.

Lemma sumFile_content_only_witness :
  sumFile (fun d => rev d) (Sample.tree Sample.rw (x68 :: xaf :: nil) nil)
          "a/x.txt"
  = ("box:copy af68", None)
  /\ sumFile (fun d => rev d) (Sample.elsewhere (x68 :: xaf :: nil)) "copy.bin"
     = ("box:copy af68", None).
Proof.
  destruct (sumFile_content_only (fun d => rev d)
              (Sample.tree Sample.rw (x68 :: xaf :: nil) nil)
              (Sample.elsewhere (x68 :: xaf :: nil)) "a/x.txt" "copy.bin"
              Sample.rw (mkStat 256 7 true) (x68 :: xaf :: nil)
              eq_refl eq_refl eq_refl eq_refl) as (Hkey & Hsame & _).
  split; [exact Hkey | rewrite Hsame; exact Hkey].
Defined.

Lemma forallb_insert {A : Type} (p : string * A -> bool) x l :
  forallb p (insert x l) = p x && forallb p l.
Proof.
  induction l as [|y l IH]; simpl; [reflexivity|].
  destruct (String.leb (fst x) (fst y)); simpl; [reflexivity|].
  rewrite IH. destruct (p x), (p y); reflexivity.
Qed.

Lemma forallb_sortByName {A : Type} (p : string * A -> bool) l :
  forallb p (sortByName l) = forallb p l.
Proof.
  induction l as [|x l IH]; simpl; [reflexivity|].
  rewrite forallb_insert, IH. reflexivity.
Qed.

Lemma inOrder_fine results :
  fine (inOrder results) = forallb (fun r => fine (snd r)) results.
Proof.
  induction results as [|[name [out [e|]]] rest IH]; simpl; try reflexivity.
  destruct (inOrder rest) as [out' err]. exact IH.
Qed.

Lemma forallb_over_map {A B : Type} (g : A -> B) (p : B -> bool) l :
  forallb p (map g l) = forallb (fun x => p (g x)) l.
Proof. induction l as [|x l IH]; simpl; congruence. Qed.

Lemma forallb_Forall_ext {A : Type} (p q : A -> bool) l :
  Forall (fun x => p x = q x) l -> forallb p l = forallb q l.
Proof. induction 1 as [|x l Hx _ IH]; simpl; congruence. Qed.

(** The walk ends without error exactly when everything under the node can
    be opened. *)
Lemma walk_fine target n :
  forall path, fine (walk target path n) = readable n.
Proof.
  induction n as [st data | st entries IH] using Node_ind; intros path.
  - simpl. unfold visit. simpl. destruct (access st); reflexivity.
  - simpl. unfold visit. simpl. destruct (access st); simpl; [|reflexivity].
    set (below := map _ entries).
    pose proof (inOrder_fine (sortByName below)) as Hf.
    destruct (inOrder (sortByName below)) as [out' err'].
    unfold fine in *. simpl in *. rewrite Hf, forallb_sortByName.
    subst below. rewrite forallb_over_map. apply forallb_Forall_ext.
    eapply Forall_impl; [|exact IH]. intros e He. simpl. apply He.
Qed.

(** C7. Packaging the directory [a] that holds [x.txt] and [b/y.txt], for the
    target [/dest], writes the members [/dest/a], [/dest/a/b],
    [/dest/a/b/y.txt] and [/dest/a/x.txt]: directories with the directory type
    flag and no content, regular files with the regular type flag and their
    bytes; packaging the directory that contains [a] names the files the
    same way.  Packaging one readable regular file writes exactly one member,
    named by the target.  When the path does not resolve, when the temporary
    file cannot be created, or when anything under the path cannot be opened,
    the result is the empty name and an error; otherwise it is the temporary
    file's name and no error. *)
Theorem tarPath_packages (x y : list byte) (f : string) :
  tarPath "/dest" (Sample.tree Sample.rw x y) (f, None) "a"
  = ((f, None),
     (mkHeader "/dest/a" "/dest/a" TypeDir 0 420 1469000000, nil)
     :: (mkHeader "/dest/a/b" "/dest/a/b" TypeDir 0 420 1469000000, nil)
     :: (mkHeader "/dest/a/b/y.txt" "/dest/a/b/y.txt" TypeReg (length y)
                  420 1469000000, y)
     :: (mkHeader "/dest/a/x.txt" "/dest/a/x.txt" TypeReg (length x)
                  420 1469000000, x)
     :: nil)
  /\
  map (fun e => (Name (fst e), Typeflag (fst e), snd e))
      (snd (tarPath "/dest" (Sample.tree Sample.rw x y) (f, None) "."))
  = ("/dest", TypeDir, nil) :: ("/dest/a", TypeDir, nil)
    :: ("/dest/a/b", TypeDir, nil) :: ("/dest/a/b/y.txt", TypeReg, y)
    :: ("/dest/a/x.txt", TypeReg, x) :: nil
  /\
  (forall target fs rel st data,
      resolve fs rel = Some (File st data) ->
      access st = true ->
      tarPath target fs (f, None) rel
      = ((f, None),
         (mkHeader target target TypeReg (length data) (mode st) (modTime st),
          data) :: nil))
  /\
  (forall target fs tmp rel,
      resolve fs rel = None
      \/ (exists fi, resolve fs rel = Some fi /\ readable fi = false)
      \/ snd tmp <> None ->
      exists e, fst (tarPath target fs tmp rel) = ("", Some e))
  /\
  (forall target fs rel fi,
      resolve fs rel = Some fi ->
      readable fi = true ->
      fst (tarPath target fs (f, None) rel) = (f, None)).
Proof.
  split; [reflexivity|]. split; [reflexivity|]. split; [|split].
  - intros target fs rel st data Hr Ha. unfold tarPath. rewrite Hr. simpl.
    rewrite Ha. reflexivity.
  - intros target fs [tn te] rel H. unfold tarPath.
    destruct (resolve fs rel) as [fi|] eqn:Hr; [|simpl; eauto].
    destruct te as [e|]; [simpl; eauto|].
    destruct H as [H | [(fi' & [= <-] & Hu) | H]];
      [discriminate | | contradiction H; reflexivity].
    destruct fi as [st data | st entries]; cbn [IsDir stat].
    + simpl in Hu. rewrite Hu. simpl. eauto.
    + pose proof (walk_fine target (Dir st entries) rel) as Hw.
      rewrite Hu in Hw.
      destruct (walk target rel (Dir st entries)) as [out [e|]];
        [simpl; eauto | discriminate Hw].
  - intros target fs rel fi Hr Hu. unfold tarPath. rewrite Hr.
    destruct fi as [st data | st entries]; cbn [IsDir stat].
    + simpl in Hu. rewrite Hu. reflexivity.
    + pose proof (walk_fine target (Dir st entries) rel) as Hw.
      rewrite Hu in Hw.
      destruct (walk target rel (Dir st entries)) as [out [e|]];
        [discriminate Hw | reflexivity].
Qed.

Lemma tarPath_packages_witness :
  tarPath "/dest" (Sample.tree Sample.rw (x68 :: nil) nil)
          ("/tmp/box-copy.1", None) "a/x.txt"
  = (("/tmp/box-copy.1", None),
     (mkHeader "/dest" "/dest" TypeReg 1 420 1469000000, x68 :: nil) :: nil)
  /\ (exists e,
        fst (tarPath "/dest" (Sample.tree Sample.locked (x68 :: nil) nil)
                     ("/tmp/box-copy.1", None) "a") = ("", Some e))
  /\ fst (tarPath "/dest" (Sample.tree Sample.rw (x68 :: nil) nil)
                  ("/tmp/box-copy.1", None) "a") = ("/tmp/box-copy.1", None).
Proof.
  destruct (tarPath_packages (x68 :: nil) nil "/tmp/box-copy.1")
    as (_ & _ & Hone & Hfail & Hok).
  split; [|split].
  - apply (Hone "/dest" (Sample.tree Sample.rw (x68 :: nil) nil) "a/x.txt"
                Sample.rw (x68 :: nil)); reflexivity.
  - apply Hfail. right. left. eexists. split; reflexivity.
  - eapply Hok; reflexivity.
Defined.

End FilesFacts.

(** * Further properties of the cache-aware builder *)

Module ProtocolFacts.

Import Builder.

Lemma scanImages_inv cacheKey b images :
  forall tr b' hit err,
    Path (scanImages cacheKey images b) tr (b', (hit, err)) ->
    Forall (inspectsChild b images) tr
    /\ (hit = false -> b' = b)
    /\ (hit = true ->
        err = None
        /\ exists img inspect,
            In img (children b images)
            /\ Comment inspect = cacheKey
            /\ In (Ev (ImageInspectWithRaw (ID img)) (inspect, None)) tr
            /\ b' = adopt inspect (ID img) b).
Proof.
  induction images as [|x images IH]; intros tr b' hit err H; simpl in H.
  - destruct H as [-> [= <- <- <-]].
    split; [constructor | split; [reflexivity | discriminate]].
  - assert (Hmono : forall ev, inspectsChild b images ev ->
                               inspectsChild b (x :: images) ev).
    { intros ev (img & ans & Hin & ->). exists img, ans. split; [|reflexivity].
      unfold children in *. simpl.
      destruct (ParentID x =? Image (config b)); [right|]; exact Hin. }
    destruct (ParentID x =? Image (config b)) eqn:Hx.
    + unfold call in H. simpl in H.
      destruct H as ([inspect [e|]] & tr' & -> & H); simpl in H.
      * destruct H as [-> [= <- <- <-]].
        split; [|split; [reflexivity | discriminate]].
        constructor; [|constructor]. exists x, (inspect, Some e).
        split; [|reflexivity]. unfold children. simpl. rewrite Hx. left.
        reflexivity.
      * assert (Hhead : inspectsChild b (x :: images)
                          (Ev (ImageInspectWithRaw (ID x)) (inspect, None))).
        { exists x, (inspect, None). split; [|reflexivity].
          unfold children. simpl. rewrite Hx. left. reflexivity. }
        destruct (Comment inspect =? cacheKey) eqn:Hc; simpl in H.
        -- destruct H as [-> [= <- <- <-]].
           split; [constructor; [exact Hhead | constructor]|].
           split; [discriminate|]. intros _. split; [reflexivity|].
           exists x, inspect. apply String.eqb_eq in Hc.
           split; [|split; [exact Hc | split; [left; reflexivity | reflexivity]]].
           unfold children. simpl. rewrite Hx. left. reflexivity.
        -- destruct (IH _ _ _ _ H) as (Hall & Hmiss & Hhit).
           split; [constructor; [exact Hhead|];
                   eapply Forall_impl; [exact Hmono | exact Hall]|].
           split; [exact Hmiss|]. intros Ht.
           destruct (Hhit Ht) as (-> & img & insp & Hin & Hk & Hev & ->).
           split; [reflexivity|]. exists img, insp.
           split; [|split; [exact Hk | split; [right; exact Hev | reflexivity]]].
           unfold children in *. simpl. rewrite Hx. right. exact Hin.
    + destruct (IH _ _ _ _ H) as (Hall & Hmiss & Hhit).
      split; [eapply Forall_impl; [exact Hmono | exact Hall]|].
      split; [exact Hmiss|]. intros Ht.
      destruct (Hhit Ht) as (-> & img & insp & Hin & Hk & Hev & ->).
      split; [reflexivity|]. exists img, insp.
      split; [|split; [exact Hk | split; [exact Hev | reflexivity]]].
      unfold children in *. simpl. rewrite Hx. exact Hin.
Qed.

(** X1. Whatever the runtime answers, hit or miss, [consultCache] calls
    nothing at all, or lists the images once and, only when the listing went
    through, inspects images of that listing whose parent is the current
    image; it makes no other call.  It changes the builder only when it
    reports a hit.  A hit is reported without an error, and only for an image
    of the listing whose parent is the current image and whose inspected
    comment equals the key; the builder is then that image's
    configuration. *)
Theorem consultCache_sound
    (Getenv : string -> string) (cacheKey : string) (b : Builder)
    (tr : list (Event Call)) (b' : Builder) (hit : bool) (err : error) :
  Path (consultCache Getenv cacheKey b) tr (b', (hit, err)) ->
  (tr = nil
   \/ exists images lerr rest,
       tr = Ev ImageList (images, lerr) :: rest
       /\ Forall (inspectsChild b images) rest
       /\ (lerr <> None -> rest = nil))
  /\ (hit = false -> b' = b)
  /\ (hit = true ->
      err = None
      /\ Getenv "NO_CACHE" = "" /\ Image (config b) <> ""
      /\ exists images rest img inspect,
          tr = Ev ImageList (images, None) :: rest
          /\ Forall (inspectsChild b images) rest
          /\ In img images /\ ParentID img = Image (config b)
          /\ Comment inspect = cacheKey
          /\ In (Ev (ImageInspectWithRaw (ID img)) (inspect, None)) rest
          /\ b' = adopt inspect (ID img) b).
Proof.
  unfold consultCache, nonempty. intros H.
  destruct (Getenv "NO_CACHE" =? "") eqn:He;
    [|destruct H as [-> [= <- <- <-]]; split; [left; reflexivity|];
      split; [reflexivity | discriminate]].
  destruct (Image (config b) =? "") eqn:Hi; simpl in H;
    [destruct H as [-> [= <- <- <-]]; split; [left; reflexivity|];
     split; [reflexivity | discriminate]|].
  unfold call in H. simpl in H.
  destruct H as ([images [e|]] & rest & -> & H); simpl in H.
  { destruct H as [-> [= <- <- <-]]. split.
    - right. exists images, (Some e), nil.
      split; [reflexivity|]. split; [constructor | reflexivity].
    - split; [reflexivity | discriminate]. }
  destruct (scanImages_inv _ _ _ _ _ _ _ H) as (Hall & Hmiss & Hhit).
  split.
  { right. exists images, None, rest. split; [reflexivity|].
    split; [exact Hall|]. intros Hne. contradiction Hne. reflexivity. }
  split; [exact Hmiss|]. intros Ht.
  destruct (Hhit Ht) as (-> & img & insp & Hin & Hk & Hev & ->).
  apply String.eqb_eq in He. apply String.eqb_neq in Hi.
  split; [reflexivity|]. split; [exact He|]. split; [exact Hi|].
  exists images, rest, img, insp. unfold children in Hin.
  apply filter_In in Hin. destruct Hin as [Hin Hp].
  apply String.eqb_eq in Hp.
  split; [reflexivity|]. split; [exact Hall|]. split; [exact Hin|].
  split; [exact Hp|]. split; [exact Hk|]. split; [exact Hev | reflexivity].
Qed.

Lemma consultCache_sound_witness :
  exists images rest img inspect,
    Ev ImageList (map fst (Sim.images Sample.layered), None)
    :: Ev (ImageInspectWithRaw "i0")
          (mkImageInspect "run pwd" Sample.debian, None)
    :: Ev (ImageInspectWithRaw "i2")
          (mkImageInspect "run ls"
             (mkConfig "" "/work" "root" ("ls" :: nil) ("sh" :: nil) nil
                       true true true), None)
    :: nil
    = Ev ImageList (images, None) :: rest
    /\ Forall (inspectsChild Sample.builder images) rest
    /\ In img images /\ ParentID img = Image (config Sample.builder)
    /\ Comment inspect = "run ls"
    /\ In (Ev (ImageInspectWithRaw (ID img)) (inspect, None)) rest
    /\ mkBuilder (mkConfig "i2" "/work" "root" ("ls" :: nil) ("sh" :: nil)
                           nil true true true)
                 "/work" "root" ("ls" :: nil) ("sh" :: nil)
       = adopt inspect (ID img) Sample.builder.
Proof.
  refine (proj2 (proj2 (proj2 (proj2 (proj2
           (consultCache_sound Sample.caching "run ls"
                          Sample.builder
                          (Ev ImageList
                              (map fst (Sim.images Sample.layered), None)
                           :: Ev (ImageInspectWithRaw "i0")
                                 (mkImageInspect "run pwd" Sample.debian, None)
                           :: Ev (ImageInspectWithRaw "i2")
                                 (mkImageInspect "run ls"
                                    (mkConfig "" "/work" "root" ("ls" :: nil)
                                              ("sh" :: nil) nil
                                              true true true), None)
                           :: nil)
                          (mkBuilder (mkConfig "i2" "/work" "root"
                                               ("ls" :: nil) ("sh" :: nil)
                                               nil true true true)
                                     "/work" "root" ("ls" :: nil) ("sh" :: nil))
                          true None _)) eq_refl)))).
  simpl. unfold call. simpl.
  eexists (_, None), _. split; [reflexivity|]. simpl.
  eexists (_, None), _. split; [reflexivity|]. simpl.
  eexists (_, None), _. split; [reflexivity|]. simpl. auto.
Defined.

(** X2. With caching on and a current image, when every image whose parent
    is the current image has been inspected and none carries the key,
    [consultCache] reports no hit and no error and leaves the builder as it
    is; images with another parent are not inspected. *)
Theorem consultCache_no_match
    (Getenv : string -> string) (cacheKey : string) (b : Builder)
    (images : list ImageSummary) (cands : list (ImageSummary * ImageInspect)) :
  Getenv "NO_CACHE" = "" ->
  Image (config b) <> "" ->
  map fst cands = children b images ->
  Forall (fun c => Comment (snd c) <> cacheKey) cands ->
  Path (consultCache Getenv cacheKey b)
       (Ev ImageList (images, None) :: inspections cands)
       (b, (false, None)).
Proof.
  intros He Hi Hc Hn. apply BuilderFacts.consultCache_lists; [assumption..|].
  rewrite <- (app_nil_r images), <- (app_nil_r (inspections cands)).
  apply BuilderFacts.scanImages_skips; [assumption..|]. simpl. auto.
Qed.

Lemma consultCache_no_match_witness :
  Path (consultCache Sample.caching "run make" Sample.builder)
       (Ev ImageList (map fst (Sim.images Sample.layered), None)
        :: inspections
             (nth 0 (Sim.images Sample.layered)
                  (mkImageSummary "" "", mkImageInspect "" Sim.noConfig)
              :: nth 2 (Sim.images Sample.layered)
                     (mkImageSummary "" "", mkImageInspect "" Sim.noConfig)
              :: nil))
       (Sample.builder, (false, None)).
Proof.
  apply (consultCache_no_match Sample.caching "run make" Sample.builder
           (map fst (Sim.images Sample.layered))
           (nth 0 (Sim.images Sample.layered)
                (mkImageSummary "" "", mkImageInspect "" Sim.noConfig)
            :: nth 2 (Sim.images Sample.layered)
                   (mkImageSummary "" "", mkImageInspect "" Sim.noConfig)
            :: nil)).
  - reflexivity.
  - discriminate.
  - reflexivity.
  - repeat constructor; discriminate.
Defined.

(** X3. With caching on, the comment under which [commit] commits the
    container is the key the hook returned when that key is not empty, and
    the caller's key otherwise (also when there is no hook). *)
Theorem commit_key_with_cache
    (Getenv : string -> string) (cacheKey : string) (hook : option Hook)
    (b : Builder) (id : string) (trh : list (Event Call)) (b1 : Builder)
    (tmp : string) (cresp : CommitResponse) (cerr rerr r : error) :
  Getenv "NO_CACHE" = "" ->
  hook_returns hook b id trh b1 tmp ->
  exists res,
    Path (commit Getenv cacheKey hook b)
         (opening b id
          ++ (map lift_event trh
              ++ tail_events (if nonempty tmp then tmp else cacheKey)
                             id b1 cresp cerr rerr)
          ++ closing id r)%list res.
Proof.
  intros He Hh.
  destruct (BuilderFacts.commit_tail_path
              (if nonempty tmp then tmp else cacheKey) id b1 cresp cerr rerr)
    as (res & Hp & _).
  exists res. apply BuilderFacts.commit_path.
  eapply BuilderFacts.commit_body_hook_returned; [exact Hh|].
  unfold startKey, nonempty. rewrite He. simpl. rewrite andb_true_r. exact Hp.
Qed.

Lemma commit_key_with_cache_witness :
  exists res,
    Path (commit Sample.caching "copy a b"
                 (Some (Sample.keyHook "box:copy 00ff")) Sample.builder)
         (opening Sample.builder "c0"
          ++ (map lift_event nil
              ++ tail_events "box:copy 00ff" "c0" Sample.builder
                             (mkCommitResponse "i0") None None)
          ++ closing "c0" None)%list res.
Proof.
  apply (commit_key_with_cache Sample.caching "copy a b"
           (Some (Sample.keyHook "box:copy 00ff")) Sample.builder "c0" nil
           Sample.builder "box:copy 00ff" (mkCommitResponse "i0")
           None None None).
  - reflexivity.
  - simpl. auto.
Defined.

(** X4. Once the hook part is over, a refused commit ends [commit] with
    [Error during commit: ...] and without any attempt at the clean removal;
    a refused clean removal ends it with [Could not remove intermediate
    container ...] although the image was committed.  Either way the only call
    left is the forced removal, and the builder returned has its canonical
    fields re-applied and its image id unchanged. *)
Theorem commit_failure_reports
    (Getenv : string -> string) (cacheKey : string) (hook : option Hook)
    (b : Builder) (id : string) (trh : list (Event Call)) (b1 : Builder)
    (tmp : string) (cresp : CommitResponse) (e : string) (r : error) :
  hook_returns hook b id trh b1 tmp ->
  let key := if nonempty tmp && (Getenv "NO_CACHE" =? "") then tmp
             else startKey Getenv cacheKey in
  Path (commit Getenv cacheKey hook b)
       (opening b id
        ++ (map lift_event trh
            ++ Ev (Run (ContainerCommit id (config (resetConfig b1)) key))
                  (cresp, Some e) :: nil)
        ++ closing id r)%list
       (resetConfig b1, Some ("Error during commit: " ++ e))
  /\
  Path (commit Getenv cacheKey hook b)
       (opening b id
        ++ (map lift_event trh
            ++ Ev (Run (ContainerCommit id (config (resetConfig b1)) key))
                  (cresp, None)
            :: Ev (Run (ContainerRemove id false)) (Some e) :: nil)
        ++ closing id r)%list
       (resetConfig b1,
        Some ("Could not remove intermediate container " ++ quoted id
                ++ ": " ++ e)).
Proof.
  intros Hh key. split.
  - destruct (BuilderFacts.commit_tail_path key id b1 cresp (Some e) None)
      as (res & Hp & _ & Herr & _).
    rewrite (Herr e eq_refl) in Hp.
    apply BuilderFacts.commit_path.
    eapply BuilderFacts.commit_body_hook_returned; [exact Hh | exact Hp].
  - destruct (BuilderFacts.commit_tail_path key id b1 cresp None (Some e))
      as (res & Hp & _ & _ & Herr).
    rewrite (Herr e eq_refl eq_refl) in Hp.
    apply BuilderFacts.commit_path.
    eapply BuilderFacts.commit_body_hook_returned; [exact Hh | exact Hp].
Qed.

Lemma commit_failure_reports_witness :
  Path (commit Sample.caching "env" None Sample.builder)
       (opening Sample.builder "c0"
        ++ (map lift_event nil
            ++ Ev (Run (ContainerCommit "c0"
                          (config (resetConfig Sample.builder)) "env"))
                  (mkCommitResponse "", Some "no space left") :: nil)
        ++ closing "c0" None)%list
       (resetConfig Sample.builder,
        Some "Error during commit: no space left").
Proof.
  apply (proj1 (commit_failure_reports Sample.caching "env" None
                  Sample.builder "c0" nil Sample.builder ""
                  (mkCommitResponse "") "no space left" None
                  ltac:(simpl; auto))).
Defined.

(** X5. [runHook] never changes the builder and never returns a key.  It
    attaches before it starts the container, starts it only when the attach
    went through, waits only when the start went through and the output was
    read to its end, and makes no other call.  It succeeds exactly when all
    of that went through and the exit status is zero; a non-zero status is
    reported with the status and the container id. *)
Theorem runHook_outcomes
    (b : Builder) (id : string) (tr : list (Event Call)) (b' : Builder)
    (key : string) (err : error) :
  Path (runHook b id) tr (b', (key, err)) ->
  b' = b /\ key = ""
  /\ exists resp aerr,
      (tr = Ev (ContainerAttach id) (resp, Some aerr) :: nil
       /\ err = Some ("Could not attach to container: " ++ aerr))
      \/
      (exists serr,
          tr = Ev (ContainerAttach id) (resp, None)
               :: Ev (ContainerStart id) (Some serr) :: nil
          /\ err = Some ("Could not start container: " ++ serr))
      \/
      (ReadErr resp = Some aerr
       /\ tr = Ev (ContainerAttach id) (resp, None)
               :: Ev (ContainerStart id) None :: nil
       /\ err = Some aerr)
      \/
      (exists stat werr,
          ReadErr resp = None
          /\ tr = Ev (ContainerAttach id) (resp, None)
                  :: Ev (ContainerStart id) None
                  :: Ev (ContainerWait id) (stat, werr) :: nil
          /\ err = match werr with
                   | Some e => Some e
                   | None =>
                     if (stat =? 0)%Z then None
                     else Some ("Command exited with status " ++ itoa stat
                                  ++ " for container " ++ quoted id)
                   end).
Proof.
  unfold runHook, call. simpl.
  intros ([resp [e|]] & t1 & -> & H); simpl in H.
  { destruct H as [-> [= <- <- <-]]. split; [reflexivity|].
    split; [reflexivity|]. exists resp, e. left. auto. }
  destruct H as ([e|] & t2 & -> & H); simpl in H.
  { destruct H as [-> [= <- <- <-]]. split; [reflexivity|].
    split; [reflexivity|]. exists resp, "". right. left. exists e. auto. }
  destruct (ReadErr resp) as [e|] eqn:Hr; simpl in H.
  { destruct H as [-> [= <- <- <-]]. split; [reflexivity|].
    split; [reflexivity|]. exists resp, e. right. right. left. auto. }
  destruct H as ([stat [e|]] & t3 & -> & H); simpl in H.
  { destruct H as [-> [= <- <- <-]]. split; [reflexivity|].
    split; [reflexivity|]. exists resp, "". right. right. right.
    exists stat, (Some e). auto. }
  destruct (stat =? 0)%Z eqn:Hs; simpl in H;
    destruct H as [-> [= <- <- <-]]; (split; [reflexivity|]);
    (split; [reflexivity|]); exists resp, ""; right; right; right;
    exists stat, None; rewrite Hs; auto.
Qed.

Lemma runHook_outcomes_witness :
  Sample.builder = Sample.builder /\ "" = "".
Proof.
  destruct (runHook_outcomes Sample.builder "c0"
              (Ev (ContainerAttach "c0") (mkHijacked "" None, None)
               :: Ev (ContainerStart "c0") None
               :: Ev (ContainerWait "c0") (2%Z, None) :: nil)
              Sample.builder ""
              (Some ("Command exited with status 2 for container "
                       ++ quoted "c0"))
              ltac:(unfold runHook, call; simpl;
                    eexists (_, None), _; split; [reflexivity|]; simpl;
                    eexists None, _; split; [reflexivity|]; simpl;
                    eexists (_, None), _; split; [reflexivity|]; simpl; auto))
    as (H1 & H2 & _).
  split; assumption.
Defined.

End ProtocolFacts.

(** * Reading a file out of an image *)

Module ContentFacts.

Import Content.

(** X6. [containerContent] makes at most three calls.  When the creation of
    the container fails it returns that error and calls nothing else.
    Otherwise it asks for the file once and then force-removes the container,
    on every return, also when the copy failed; the answer of the removal
    does not reach the result. *)
Theorem containerContent_calls
    (Quote : string -> string)
    (b : Builder.Builder) (fn : string) (tr : list (Event Client))
    (res : list byte * error) :
  Path (containerContent Quote b fn) tr res ->
  (exists id e,
      tr = Ev (Api (ContainerCreate (Builder.config b))) (id, Some e) :: nil
      /\ res = (nil, Some e))
  \/
  (exists id rc cerr r,
      tr = Ev (Api (ContainerCreate (Builder.config b))) (id, None)
           :: Ev (CopyFromContainer id fn) (rc, cerr)
           :: Ev (Api (ContainerRemove id true)) r :: nil
      /\ res = match cerr with
               | Some e => (nil, Some e)
               | None => extract Quote fn rc
               end
      /\ forall r',
          Path (containerContent Quote b fn)
               (Ev (Api (ContainerCreate (Builder.config b))) (id, None)
                :: Ev (CopyFromContainer id fn) (rc, cerr)
                :: Ev (Api (ContainerRemove id true)) r' :: nil) res).
Proof.
  unfold containerContent, Builder.createEmptyContainer, call. simpl.
  intros ([id [e|]] & t1 & -> & H); simpl in H.
  - destruct H as [-> <-]. left. eauto.
  - right. destruct H as ([rc cerr] & t2 & -> & H).
    exists id, rc, cerr.
    destruct cerr as [e|]; simpl in H;
      destruct H as (r & t3 & -> & H); simpl in H; destruct H as [-> <-];
      exists r; (split; [reflexivity|]); (split; [reflexivity|]);
      intros r'; eexists (id, None), _; (split; [reflexivity|]); simpl;
      eexists (rc, _), _; (split; [reflexivity|]); simpl;
      eexists r', _; (split; [reflexivity|]); simpl; auto.
Qed.

Lemma containerContent_calls_witness :
  (exists id e,
      Ev (Api (ContainerCreate (Builder.config Sample.builder)))
         ("", Some "no such image") :: nil
      = Ev (Api (ContainerCreate (Builder.config Sample.builder)))
           (id, Some e) :: nil
      /\ (@nil byte, Some "no such image") = (nil, Some e))
  \/
  (exists id rc cerr r,
      Ev (Api (ContainerCreate (Builder.config Sample.builder)))
         ("", Some "no such image") :: nil
      = Ev (Api (ContainerCreate (Builder.config Sample.builder))) (id, None)
        :: Ev (CopyFromContainer id "/etc/hostname") (rc, cerr)
        :: Ev (Api (ContainerRemove id true)) r :: nil
      /\ (@nil byte, Some "no such image")
         = match cerr with
           | Some e => (nil, Some e)
           | None => extract quoted "/etc/hostname" rc
           end
      /\ forall r',
          Path (containerContent quoted Sample.builder "/etc/hostname")
               (Ev (Api (ContainerCreate (Builder.config Sample.builder)))
                   (id, None)
                :: Ev (CopyFromContainer id "/etc/hostname") (rc, cerr)
                :: Ev (Api (ContainerRemove id true)) r' :: nil)
               (nil, Some "no such image")).
Proof.
  apply (containerContent_calls quoted Sample.builder "/etc/hostname"
           (Ev (Api (ContainerCreate (Builder.config Sample.builder)))
               ("", Some "no such image") :: nil)
           (nil, Some "no such image")).
  unfold containerContent, Builder.createEmptyContainer, call. simpl.
  eexists (_, Some _), _. split; [reflexivity|]. simpl. auto.
Defined.

Lemma seek_first name pre m post final :
  Forall (fun x => MemberName x <> name) pre ->
  MemberName m = name ->
  seek name (pre ++ m :: post) final = (Some m, None).
Proof.
  intros Hpre Hm. induction Hpre as [|x pre Hx _ IH]; simpl.
  - apply String.eqb_eq in Hm. rewrite Hm. reflexivity.
  - apply String.eqb_neq in Hx. rewrite Hx. exact IH.
Qed.

Lemma seek_none name members final :
  Forall (fun x => MemberName x <> name) members ->
  seek name members final = (None, final).
Proof.
  intros H. induction H as [|x l Hx _ IH]; simpl.
  - destruct final; reflexivity.
  - apply String.eqb_neq in Hx. rewrite Hx. exact IH.
Qed.

(** X7. What [containerContent] gets out of the archive: the content of the
    first member whose name is the base name of the requested path, as
    reading it yields it (later members of that name and the end of the
    archive are not looked at); when no member has that name, the error the
    archive ended with, or, when it ended normally, [Could not find ... in
    container] with the requested path as [%q] renders it. *)
Theorem extract_first_member
    (Quote : string -> string)
    (fn : string) (pre : list Member) (m : Member) (post : list Member)
    (members : list Member) (final : error) :
  (Forall (fun x => MemberName x <> Files.Base fn) pre ->
   MemberName m = Files.Base fn ->
   extract Quote fn ((pre ++ m :: post)%list, final) = MemberData m)
  /\
  (Forall (fun x => MemberName x <> Files.Base fn) members ->
   extract Quote fn (members, final)
   = (nil, Some match final with
                | Some e => e
                | None => "Could not find " ++ Quote fn ++ " in container"
                end)).
Proof.
  split.
  - intros Hpre Hm. unfold extract. simpl. rewrite seek_first by assumption.
    apply String.eqb_eq in Hm. rewrite Hm. reflexivity.
  - intros Hno. unfold extract. simpl. rewrite seek_none by assumption.
    destruct final; reflexivity.
Qed.

Lemma extract_first_member_witness :
  extract quoted "/etc/hostname" Fixtures.hostname
  = (x62 :: x6f :: x78 :: nil, None)
  /\ extract quoted "/etc/motd" Fixtures.hostname
     = (nil, Some ("Could not find " ++ quoted "/etc/motd" ++ " in container")).
Proof.
  split.
  - apply (proj1 (extract_first_member quoted "/etc/hostname"
                    (mkMember "etc" (nil, None) :: nil)
                    (mkMember "hostname" (x62 :: x6f :: x78 :: nil, None))
                    (mkMember "hostname" (x6f :: nil, None) :: nil)
                    nil None)).
    + repeat constructor. discriminate.
    + reflexivity.
  - apply (proj2 (extract_first_member quoted "/etc/motd" nil
                    (mkMember "" (nil, None)) nil
                    (fst Fixtures.hostname) None)).
    repeat constructor; discriminate.
Defined.

End ContentFacts.

(** * The step functions of the first version *)

Module StepsFacts.

Import Dsl.

Section WithCommit.

Variable commit : Builder -> Prog Call (Builder * (string * error)).

Lemma run_body_inv b tr b2 ret :
  Path (run_body commit b) tr (b2, ret) ->
  exists trc b1 newid cerr rest,
    Path (commit b) trc (b1, (newid, cerr))
    /\ tr = (trc ++ rest)%list
    /\ b2 = set_id newid b1
    /\ match cerr with
       | Some e =>
         rest = nil
         /\ ret = (Some (VString ("Error creating intermediate container: "
                                    ++ e)), None)
       | None =>
         exists resp aerr,
           (rest = Ev (ContainerAttach newid) (resp, Some aerr) :: nil
            /\ ret = (Some (VString ("Error attaching to execution context "
                                       ++ quoted newid ++ ": " ++ aerr)),
                      None))
           \/
           (exists serr,
               rest = Ev (ContainerAttach newid) (resp, None)
                      :: Ev (ContainerStart newid) serr :: nil
               /\ ret = match serr with
                        | Some e =>
                          (Some (VString
                                   ("Error attaching to execution context "
                                      ++ quoted newid ++ ": " ++ e)), None)
                        | None =>
                          match ReadErr resp with
                          | Some e => (Some (VString e), None)
                          | None => (None, None)
                          end
                        end)
       end.
Proof.
  unfold run_body. intros H. apply path_bind_inv in H.
  destruct H as (trc & rest & [b1 [newid cerr]] & -> & Hc & H).
  exists trc, b1, newid, cerr, rest. split; [exact Hc|]. split; [reflexivity|].
  destruct cerr as [e|]; simpl in H.
  - destruct H as [-> [= <- <-]]. auto.
  - unfold call in H. simpl in H.
    destruct H as ([resp [e|]] & t1 & -> & H); simpl in H.
    + destruct H as [-> [= <- <-]]. split; [reflexivity|].
      exists resp, e. left. auto.
    + destruct H as (serr & t2 & -> & H).
      destruct serr as [e|]; simpl in H.
      * destruct H as [-> [= <- <-]]. split; [reflexivity|].
        exists resp, "". right. exists (Some e). auto.
      * destruct (ReadErr resp) as [e|] eqn:Hr; simpl in H;
          destruct H as [-> [= <- <-]]; (split; [reflexivity|]);
          exists resp, ""; right; exists None; rewrite Hr; auto.
Qed.

Lemma run_inv args b tr b' ret :
  imageID b <> "" ->
  Path (run commit args b) tr (b', ret) ->
  exists b2,
    Path (run_body commit (shell args b)) tr (b2, ret)
    /\ b' = set_config (set_Cmd (Cmd (config b)) (config b2)) b2.
Proof.
  intros Hi H. unfold run in H. apply String.eqb_neq in Hi. rewrite Hi in H.
  apply path_bind_inv in H.
  destruct H as (t1 & t2 & [b2 r2] & -> & Hb & H). simpl in H.
  destruct H as [-> [= <- <-]]. rewrite app_nil_r. exists b2. auto.
Qed.

(** X8. Past its guard, [run] hands [commit] the builder with the command
    [/bin/sh -c] followed by its arguments, and on every return, failing or
    not, the builder's command is again what it was before the step. *)
Theorem run_restores_cmd
    (args : list Value) (b : Builder) (tr : list (Event Call))
    (b' : Builder) (ret : Returned) :
  imageID b <> "" ->
  Path (run commit args b) tr (b', ret) ->
  Cmd (config b') = Cmd (config b)
  /\ Cmd (config (shell args b)) = "/bin/sh" :: "-c" :: map to_s args
  /\ exists trc rest r,
      Path (commit (shell args b)) trc r /\ tr = (trc ++ rest)%list.
Proof.
  intros Hi H. destruct (run_inv _ _ _ _ _ Hi H) as (b2 & Hb & ->).
  split; [reflexivity|]. split; [reflexivity|].
  destruct (run_body_inv _ _ _ _ Hb) as (trc & b1 & newid & cerr & rest
                                         & Hc & -> & _).
  exists trc, rest, (b1, (newid, cerr)). auto.
Qed.

(** X9. After [commit], [run] works on the id [commit] returned, which it
    also stores in the builder, even when [commit] failed.  When [commit]
    failed it calls nothing more.  Otherwise it attaches to that id and, if
    that went through, starts it; these are its only calls: it neither waits
    for the container nor looks at an exit status, and it succeeds when the
    start went through and the output was read to its end. *)
Theorem run_after_commit
    (args : list Value) (b : Builder) (tr : list (Event Call))
    (b' : Builder) (ret : Returned) :
  imageID b <> "" ->
  Path (run commit args b) tr (b', ret) ->
  exists trc b1 newid cerr rest,
    Path (commit (shell args b)) trc (b1, (newid, cerr))
    /\ tr = (trc ++ rest)%list
    /\ id b' = newid
    /\ match cerr with
       | Some e =>
         rest = nil
         /\ ret = (Some (VString ("Error creating intermediate container: "
                                    ++ e)), None)
       | None =>
         exists resp aerr,
           (rest = Ev (ContainerAttach newid) (resp, Some aerr) :: nil
            /\ ret = (Some (VString ("Error attaching to execution context "
                                       ++ quoted newid ++ ": " ++ aerr)),
                      None))
           \/
           (exists serr,
               rest = Ev (ContainerAttach newid) (resp, None)
                      :: Ev (ContainerStart newid) serr :: nil
               /\ ret = match serr with
                        | Some e =>
                          (Some (VString
                                   ("Error attaching to execution context "
                                      ++ quoted newid ++ ": " ++ e)), None)
                        | None =>
                          match ReadErr resp with
                          | Some e => (Some (VString e), None)
                          | None => (None, None)
                          end
                        end)
       end.
Proof.
  intros Hi H. destruct (run_inv _ _ _ _ _ Hi H) as (b2 & Hb & ->).
  destruct (run_body_inv _ _ _ _ Hb) as (trc & b1 & newid & cerr & rest
                                         & Hc & -> & -> & Hrest).
  exists trc, b1, newid, cerr, rest. auto.
Qed.

(** X10. [from] hands [commit] the builder with the image set to its
    argument and the three terminal flags on, every other field as it was;
    what [from] itself changes afterwards is only the tracked id, which takes
    what [commit] returned also when [commit] failed.  [from] never writes
    [imageID], the field [run] checks: unless [commit] sets it, a [run] that
    follows a [from] on a fresh builder is still refused. *)
Theorem from_effect
    (arg0 : Value) (args : list Value) (b : Builder) (tr : list (Event Call))
    (b' : Builder) (ret : Returned) :
  Path (from commit arg0 b) tr (b', ret) ->
  (exists b1 newid err,
      Path (commit (rebased arg0 b)) tr (b1, (newid, err))
      /\ b' = set_id newid b1
      /\ ret = match err with
               | Some e => (Some (VString e), None)
               | None => (Some (VString ("Response: " ++ newid)), None)
               end)
  /\
  ((forall x t x1 r, Path (commit x) t (x1, r) -> imageID x1 = imageID x) ->
   imageID b = "" ->
   run commit args b' = Ret (b', (Some (VString usage_from_first), None))).
Proof.
  unfold from. intros H. apply path_bind_inv in H.
  destruct H as (t1 & t2 & [b1 [newid err]] & -> & Hc & H).
  assert (Hb' : b' = set_id newid b1
                /\ ret = match err with
                         | Some e => (Some (VString e), None)
                         | None => (Some (VString ("Response: " ++ newid)), None)
                         end
                /\ t2 = nil).
  { destruct err as [e|]; simpl in H; destruct H as [-> [= <- <-]]; auto. }
  destruct Hb' as (-> & -> & ->). rewrite app_nil_r. split.
  - exists b1, newid, err. auto.
  - intros Hkeep Hi. unfold run. simpl.
    rewrite (Hkeep _ _ _ _ Hc). simpl. rewrite Hi. reflexivity.
Qed.

Lemma envLoop_reads hash keys :
  forall b,
    Forall (fun k => snd (Steps.Get hash k) = None) keys ->
    Steps.envLoop hash (map (fun k => (k, None)) keys) b
    = (withEnv (map (entryOf hash) keys) b, None).
Proof.
  induction keys as [|k keys IH]; intros b Hok; simpl.
  - unfold withEnv. rewrite app_nil_r. destruct b as [[] ? ?]. reflexivity.
  - inversion Hok as [|? ? Hk Hrest]; subst.
    destruct (Steps.Get hash k) as [v e] eqn:Hg. simpl in Hk. subst e.
    rewrite IH by assumption. unfold withEnv, entryOf. rewrite Hg. simpl.
    rewrite <- app_assoc. reflexivity.
Qed.

Lemma envLoop_stops hash keys bad rest e :
  forall b,
    Forall (fun k => snd (Steps.Get hash k) = None) keys ->
    snd bad = Some e \/ (snd bad = None /\ snd (Steps.Get hash (fst bad)) = Some e) ->
    Steps.envLoop hash (map (fun k => (k, None)) keys ++ bad :: rest)%list b
    = (withEnv (map (entryOf hash) keys) b, Some e).
Proof.
  induction keys as [|k keys IH]; intros b Hok Hbad; simpl.
  - unfold withEnv. rewrite app_nil_r. destruct b as [[] ? ?].
    destruct bad as [kb [eb|]]; simpl in *.
    + destruct Hbad as [[= ->] | [[=] _]]. reflexivity.
    + destruct Hbad as [[=] | [_ Hg]].
      destruct (Steps.Get hash kb) as [v e']. simpl in Hg. subst e'.
      reflexivity.
  - inversion Hok as [|? ? Hk Hrest]; subst.
    destruct (Steps.Get hash k) as [v e'] eqn:Hg. simpl in Hk. subst e'.
    rewrite IH by assumption. unfold withEnv, entryOf. rewrite Hg. simpl.
    rewrite <- app_assoc. reflexivity.
Qed.

(** X11. [env] appends: when every key and value of the hash can be read,
    it hands [commit] the builder whose environment is the old one followed
    by one [key=value] entry per key, in the order of the key array; entries
    already there are kept, also those for the same key.  When a key or a
    value cannot be read, [env] returns that error and calls nothing, and the
    entries written before the failure stay in the builder. *)
Theorem env_appends
    (hash : Steps.RubyHash) (keys : list Value) (bad : Value * error)
    (rest : list (Value * error)) (e : string) (b : Builder) :
  Forall (fun k => snd (Steps.Get hash k) = None) keys ->
  (Steps.Keys hash = (map (fun k => (k, None)) keys, None) ->
   Steps.env commit hash b
   = Steps.commitStep commit (withEnv (map (entryOf hash) keys) b))
  /\
  (Steps.Keys hash
   = ((map (fun k => (k, None)) keys ++ bad :: rest)%list, None) ->
   snd bad = Some e
   \/ (snd bad = None /\ snd (Steps.Get hash (fst bad)) = Some e) ->
   Steps.env commit hash b
   = Ret (withEnv (map (entryOf hash) keys) b, (Some (VString e), None))).
Proof.
  intros Hok. split.
  - intros Hk. unfold Steps.env. rewrite Hk, envLoop_reads by assumption.
    reflexivity.
  - intros Hk Hbad. unfold Steps.env.
    rewrite Hk, (envLoop_stops _ _ _ _ e) by assumption. reflexivity.
Qed.

(** X12. Unlike [run], [cmd] and [entrypoint] leave their value in the
    builder: with a [commit] that does not touch the configuration, after
    [cmd] the command is the step's arguments, after [entrypoint] the entry
    point is, and a later [run] step, whatever it runs and however it ends,
    leaves that command in place. *)
Theorem cmd_survives_run
    (args later : list Value) (b : Builder) (tr1 tr2 tr3 : list (Event Call))
    (b1 b2 b3 : Builder) (r1 r2 r3 : Returned) :
  keeps_config commit ->
  (Path (Steps.cmd commit args b) tr1 (b1, r1) ->
   Cmd (config b1) = map to_s args
   /\ (imageID b1 <> "" ->
       Path (run commit later b1) tr2 (b2, r2) ->
       Cmd (config b2) = map to_s args))
  /\
  (Path (Steps.entrypoint commit args b) tr3 (b3, r3) ->
   Entrypoint (config b3) = map to_s args
   /\ Cmd (config b3) = Cmd (config b)).
Proof.
  intros Hk. split.
  - intros H. unfold Steps.cmd, Steps.commitStep in H.
    apply path_bind_inv in H.
    destruct H as (t1 & t2 & [bc [newid err]] & -> & Hc & H).
    apply Hk in Hc.
    assert (Hb1 : config b1 = config bc).
    { destruct err; simpl in H; destruct H as [_ [= <- _]]; reflexivity. }
    assert (Hcmd : Cmd (config b1) = map to_s args).
    { rewrite Hb1, Hc. reflexivity. }
    split; [exact Hcmd|]. intros Hi Hr.
    destruct (run_inv _ _ _ _ _ Hi Hr) as (bx & _ & ->). exact Hcmd.
  - intros H. unfold Steps.entrypoint, Steps.commitStep in H.
    apply path_bind_inv in H.
    destruct H as (t1 & t2 & [bc [newid err]] & -> & Hc & H).
    apply Hk in Hc.
    assert (Hb3 : config b3 = config bc).
    { destruct err; simpl in H; destruct H as [_ [= <- _]]; reflexivity. }
    rewrite Hb3, Hc. split; reflexivity.
Qed.

End WithCommit.

(** Following a program along given answers. *)
Ltac follow :=
  simpl; unfold call; simpl;
  repeat (eexists _, _; split; [reflexivity|]; simpl);
  auto.

Lemma run_restores_cmd_witness :
  Cmd (config (mkBuilder (config Fixtures.based) "c9" "i1")) = "bash" :: nil.
Proof.
  apply (run_restores_cmd Sample.commit0 (VString "ls" :: nil) Fixtures.based
           (Ev (ContainerCreate (config (shell (VString "ls" :: nil)
                                               Fixtures.based)))
               ("c9", None)
            :: Ev (ContainerAttach "c9") (mkHijacked "" None, None)
            :: Ev (ContainerStart "c9") None :: nil)
           (mkBuilder (config Fixtures.based) "c9" "i1") (None, None)).
  - discriminate.
  - follow.
Defined.

Lemma run_after_commit_witness :
  exists trc rest,
    Ev (ContainerCreate (config (shell (VString "ls" :: nil) Fixtures.based)))
       ("", Some "no such image") :: nil
    = (trc ++ rest)%list.
Proof.
  destruct (run_after_commit Sample.commit0 (VString "ls" :: nil)
              Fixtures.based
              (Ev (ContainerCreate (config (shell (VString "ls" :: nil)
                                                  Fixtures.based)))
                  ("", Some "no such image") :: nil)
              (mkBuilder (config Fixtures.based) "" "i1")
              (Some (VString
                       "Error creating intermediate container: no such image"),
               None)
              ltac:(discriminate) ltac:(follow))
    as (trc & _ & _ & _ & rest & _ & Htr & _).
  exists trc, rest. exact Htr.
Defined.

Lemma commit0_keeps_imageID x t x1 r :
  Path (Sample.commit0 x) t (x1, r) -> imageID x1 = imageID x.
Proof.
  unfold Sample.commit0, call. simpl.
  intros ([newid err] & t' & -> & H). simpl in H.
  destruct H as [_ [= <- _]]. reflexivity.
Qed.

Lemma from_effect_witness :
  run Sample.commit0 (VString "ls" :: nil)
      (set_id "c0" (rebased (VString "debian") Sample.blank))
  = Ret (set_id "c0" (rebased (VString "debian") Sample.blank),
         (Some (VString usage_from_first), None)).
Proof.
  apply (proj2 (from_effect Sample.commit0 (VString "debian")
                  (VString "ls" :: nil) Sample.blank
                  (Ev (ContainerCreate
                         (config (rebased (VString "debian") Sample.blank)))
                      ("c0", None) :: nil)
                  (set_id "c0" (rebased (VString "debian") Sample.blank))
                  (Some (VString "Response: c0"), None)
                  ltac:(follow))
               commit0_keeps_imageID eq_refl).
Defined.

Lemma env_appends_witness :
  Steps.env Sample.commit0 Fixtures.pathAndLang Fixtures.based
  = Steps.commitStep Sample.commit0
      (withEnv ("PATH=/bin" :: "LANG=C" :: nil) Fixtures.based)
  /\ Steps.env Sample.commit0 Fixtures.halfBroken Fixtures.based
     = Ret (withEnv ("PATH=/bin" :: nil) Fixtures.based,
            (Some (VString "KeyError"), None)).
Proof.
  split.
  - apply (proj1 (env_appends Sample.commit0 Fixtures.pathAndLang
                    (VString "PATH" :: VString "LANG" :: nil)
                    (VNil, None) nil "" Fixtures.based
                    ltac:(repeat constructor)) eq_refl).
  - apply (proj2 (env_appends Sample.commit0 Fixtures.halfBroken
                    (VString "PATH" :: nil)
                    (VString "LANG", None) nil "KeyError" Fixtures.based
                    ltac:(repeat constructor)) eq_refl).
    right. split; reflexivity.
Defined.

Lemma commit0_keeps_config : keeps_config Sample.commit0.
Proof.
  intros b tr b' r. unfold Sample.commit0, call. simpl.
  intros ([newid err] & t & -> & H). simpl in H.
  destruct H as [_ [= <- _]]. reflexivity.
Qed.

Lemma cmd_survives_run_witness :
  Cmd (config (mkBuilder (set_Cmd ("nginx" :: "-g" :: nil)
                                  (config Fixtures.based)) "c2" "i1"))
  = "nginx" :: "-g" :: nil.
Proof.
  apply (proj1 (cmd_survives_run Sample.commit0
                  (VString "nginx" :: VString "-g" :: nil) nil Fixtures.based
                  (Ev (ContainerCreate
                         (set_Cmd ("nginx" :: "-g" :: nil)
                                  (config Fixtures.based)))
                      ("c2", None) :: nil)
                  nil nil
                  (mkBuilder (set_Cmd ("nginx" :: "-g" :: nil)
                                      (config Fixtures.based)) "c2" "i1")
                  Fixtures.based Fixtures.based
                  (None, None) (None, None) (None, None)
                  commit0_keeps_config)).
  follow.
Defined.

End StepsFacts.

(** * The hasher and the packager, further *)

Module ArchiveFacts.

Import Files.

(** X13. The hexadecimal text [sumFile] puts in the key reads back to the
    digest, byte for byte.  So two readable files get the same key only if
    their digests are equal, and with a digest that tells contents apart,
    only if their contents are equal. *)
Theorem sumFile_key_determines_digest
    (Sum512_256 : list byte -> list byte) (fs1 fs2 : FS) (p1 p2 : string)
    (st1 st2 : Stat) (d1 d2 : list byte) :
  resolve fs1 p1 = Some (File st1 d1) ->
  resolve fs2 p2 = Some (File st2 d2) ->
  access st1 = true ->
  access st2 = true ->
  sumFile Sum512_256 fs1 p1 = sumFile Sum512_256 fs2 p2 ->
  DecodeString (EncodeToString (Sum512_256 d1)) = Some (Sum512_256 d1)
  /\ Sum512_256 d1 = Sum512_256 d2
  /\ ((forall a b, Sum512_256 a = Sum512_256 b -> a = b) -> d1 = d2).
Proof.
  intros H1 H2 A1 A2. unfold sumFile. rewrite H1, H2. simpl.
  rewrite A1, A2. intros [= Hk].
  assert (Hd : Sum512_256 d1 = Sum512_256 d2).
  { pose proof (FilesFacts.decode_encode (Sum512_256 d1)) as E1.
    rewrite Hk, FilesFacts.decode_encode in E1. congruence. }
  split; [apply FilesFacts.decode_encode|]. split; [exact Hd|]. auto.
Qed.

Lemma sumFile_key_determines_digest_witness :
  rev (x68 :: x69 :: nil) = rev (x68 :: x69 :: nil).
Proof.
  apply (sumFile_key_determines_digest (fun d => rev d)
           (Sample.tree Sample.rw (x68 :: x69 :: nil) nil)
           (Sample.elsewhere (x68 :: x69 :: nil)) "a/x.txt" "copy.bin"
           Sample.rw (mkStat 256 7 true)
           (x68 :: x69 :: nil) (x68 :: x69 :: nil)); reflexivity.
Defined.

(** X14. [sumFile] returns a key only for a regular file it could open: a
    path that names nothing (the empty path included), a node that cannot be
    opened and a directory all give an error, and every error comes with the
    empty key. *)
Theorem sumFile_errors
    (Sum512_256 : list byte -> list byte) (fs : FS) (fn : string) :
  (snd (sumFile Sum512_256 fs fn) = None ->
   exists st data,
     resolve fs fn = Some (File st data) /\ access st = true)
  /\ (snd (sumFile Sum512_256 fs fn) <> None ->
      fst (sumFile Sum512_256 fs fn) = "")
  /\ sumFile Sum512_256 fs "" = ("", Some (missing "open" ""))
  /\ (forall st entries,
        resolve fs fn = Some (Dir st entries) ->
        snd (sumFile Sum512_256 fs fn) <> None).
Proof.
  unfold sumFile. repeat split.
  - destruct (resolve fs fn) as [[st data | st entries]|]; simpl;
      try discriminate; destruct (access st) eqn:Ha; simpl; try discriminate.
    intros _. eauto.
  - destruct (resolve fs fn) as [[st data | st entries]|]; simpl; auto;
      destruct (access st); simpl; auto. intros H. contradiction H. reflexivity.
  - intros st entries Hr. rewrite Hr. simpl.
    destruct (access st); simpl; discriminate.
Qed.

Lemma list_sum_insert {A : Type} (g : string * A -> nat) x l :
  list_sum (map g (insert x l)) = g x + list_sum (map g l).
Proof.
  induction l as [|y l IH]; simpl; [reflexivity|].
  destruct (String.leb (fst x) (fst y)); simpl; [reflexivity|].
  rewrite IH. lia.
Qed.

Lemma list_sum_sortByName {A : Type} (g : string * A -> nat) l :
  list_sum (map g (sortByName l)) = list_sum (map g l).
Proof.
  induction l as [|x l IH]; simpl; [reflexivity|].
  rewrite list_sum_insert, IH. reflexivity.
Qed.

Lemma Forall_insert {A : Type} (P : string * A -> Prop) x l :
  P x -> Forall P l -> Forall P (insert x l).
Proof.
  intros Hx Hl. induction Hl as [|y l Hy Hl IH]; simpl.
  - constructor; [exact Hx | constructor].
  - destruct (String.leb (fst x) (fst y)).
    + constructor; [exact Hx|]. constructor; assumption.
    + constructor; assumption.
Qed.

Lemma Forall_sortByName {A : Type} (P : string * A -> Prop) l :
  Forall P l -> Forall P (sortByName l).
Proof.
  induction 1 as [|x l Hx Hl IH]; simpl; [constructor|].
  apply Forall_insert; assumption.
Qed.

(** What the walk below a directory gathers when nothing fails. *)
Lemma inOrder_gathers (P : Entry -> Prop) results :
  Forall (fun r => snd (snd r) = None /\ Forall P (fst (snd r))) results ->
  snd (inOrder results) = None
  /\ length (fst (inOrder results))
     = list_sum (map (fun r => length (fst (snd r))) results)
  /\ Forall P (fst (inOrder results)).
Proof.
  induction 1 as [|[name [out err]] rest [He Hp] _ (IH1 & IH2 & IH3)]; simpl.
  - repeat split. constructor.
  - simpl in He, Hp. subst err.
    destruct (inOrder rest) as [out' err']. simpl in *.
    split; [exact IH1|]. split.
    + rewrite length_app, IH2. reflexivity.
    + apply Forall_app. split; assumption.
Qed.

(** X15. When everything under a node can be opened, the walk writes exactly
    one member per file and directory of the tree, the node itself first
    under the name [Join target path]; every member is named and linked
    alike, a regular file carries as many bytes as its header announces and a
    directory carries none. *)
Theorem walk_one_member_per_node (target : string) (n : Node) :
  forall path,
    readable n = true ->
    snd (walk target path n) = None
    /\ length (fst (walk target path n)) = nodes n
    /\ Forall wellFormed (fst (walk target path n))
    /\ exists first rest,
        fst (walk target path n) = first :: rest
        /\ Name (fst first) = Join target path
        /\ Typeflag (fst first) = if IsDir n then TypeDir else TypeReg.
Proof.
  induction n as [st data | st entries IH] using FilesFacts.Node_ind;
    intros path Hr.
  - simpl in Hr. simpl. unfold visit. simpl. rewrite Hr. simpl.
    repeat split.
    + constructor; [|constructor]. unfold wellFormed. simpl. auto.
    + eexists _, nil. repeat split.
  - simpl in Hr. apply andb_true_iff in Hr. destruct Hr as [Ha Hall].
    simpl. unfold visit. simpl. rewrite Ha. simpl.
    set (below := map _ entries).
    assert (Hbelow :
      Forall (fun r => snd (snd r) = None /\ Forall wellFormed (fst (snd r)))
             (sortByName below)
      /\ list_sum (map (fun r => length (fst (snd r))) below)
         = list_sum (map (fun e => nodes (snd e)) entries)).
    { subst below. rewrite forallb_forall in Hall. split.
      - apply Forall_sortByName. apply Forall_forall.
        intros r Hin. apply in_map_iff in Hin.
        destruct Hin as (e & <- & He). rewrite Forall_forall in IH.
        destruct (IH e He (Join path (fst e)) (Hall e He)) as (H1 & _ & H3 & _).
        simpl. auto.
      - rewrite map_map. f_equal. apply map_ext_in. intros e He.
        rewrite Forall_forall in IH.
        destruct (IH e He (Join path (fst e)) (Hall e He)) as (_ & H2 & _).
        simpl. exact H2. }
    destruct Hbelow as [Hsorted Hsum].
    destruct (inOrder_gathers wellFormed _ Hsorted) as (G1 & G2 & G3).
    rewrite list_sum_sortByName in G2. pose proof (eq_trans G2 Hsum) as G2'.
    destruct (inOrder (sortByName below)) as [out' err']. simpl in *.
    split; [exact G1|]. split; [rewrite G2'; reflexivity|]. split.
    + constructor; [|exact G3]. unfold wellFormed. simpl. auto.
    + eexists _, out'. repeat split.
Qed.

Lemma walk_one_member_per_node_witness :
  length (fst (walk "/dest" "a"
                    (Dir Sample.rw
                       (("x.txt", File Sample.rw (x68 :: nil))
                        :: ("b", Dir Sample.rw
                                   (("y.txt", File Sample.rw nil) :: nil))
                        :: nil)))) = 4.
Proof.
  apply (walk_one_member_per_node "/dest"
           (Dir Sample.rw
              (("x.txt", File Sample.rw (x68 :: nil))
               :: ("b", Dir Sample.rw (("y.txt", File Sample.rw nil) :: nil))
               :: nil)) "a" eq_refl).
Defined.

Lemma sumFile_errors_witness :
  fst (sumFile (fun d => rev d) (Sample.tree Sample.locked nil nil) "a/x.txt")
  = "".
Proof.
  apply (proj1 (proj2 (sumFile_errors (fun d => rev d)
                         (Sample.tree Sample.locked nil nil) "a/x.txt"))).
  discriminate.
Defined.

(** The order [sort.Strings] uses. *)
Lemma leb_iff a b :
  String.leb a b = true <-> String_as_OT.lt a b \/ a = b.
Proof.
  unfold String.leb. split.
  - destruct (String.compare a b) eqn:Hc; try discriminate; intros _.
    + right. apply String_as_OT.cmp_eq. exact Hc.
    + left. apply String_as_OT.cmp_lt. exact Hc.
  - intros [Hlt | ->].
    + apply String_as_OT.cmp_lt in Hlt. unfold String_as_OT.cmp in Hlt.
      rewrite Hlt. reflexivity.
    + assert (Hc : String.compare b b = Eq)
        by (apply String_as_OT.cmp_eq; reflexivity).
      rewrite Hc. reflexivity.
Qed.

Lemma leb_trans a b c :
  String.leb a b = true -> String.leb b c = true -> String.leb a c = true.
Proof.
  rewrite !leb_iff. intros [Hab | ->] [Hbc | ->]; auto.
  left. eapply String_as_OT.lt_trans; eassumption.
Qed.

Lemma leb_false a b : String.leb a b = false -> String.leb b a = true.
Proof.
  intros H. destruct (String.leb_total a b) as [H' | H']; congruence.
Qed.

Lemma insert_insert {A : Type} (x y : string * A) l :
  fst x <> fst y -> insert x (insert y l) = insert y (insert x l).
Proof.
  intros Hxy. induction l as [|z l IH]; simpl.
  - destruct (String.leb (fst x) (fst y)) eqn:Hx,
             (String.leb (fst y) (fst x)) eqn:Hy; try reflexivity.
    + exfalso. apply Hxy. apply String.leb_antisym; assumption.
    + apply leb_false in Hx. congruence.
  - destruct (String.leb (fst y) (fst z)) eqn:Hyz,
             (String.leb (fst x) (fst z)) eqn:Hxz; simpl.
    + destruct (String.leb (fst x) (fst y)) eqn:Hx,
               (String.leb (fst y) (fst x)) eqn:Hy; try reflexivity;
        rewrite ?Hyz, ?Hxz; try reflexivity.
      * exfalso. apply Hxy. apply String.leb_antisym; assumption.
      * apply leb_false in Hx. congruence.
    + rewrite Hyz.
      destruct (String.leb (fst x) (fst y)) eqn:Hx.
      * rewrite (leb_trans _ _ _ Hx Hyz) in Hxz. discriminate.
      * rewrite Hxz. reflexivity.
    + rewrite Hxz.
      destruct (String.leb (fst y) (fst x)) eqn:Hy.
      * rewrite (leb_trans _ _ _ Hy Hxz) in Hyz. discriminate.
      * rewrite Hyz. reflexivity.
    + rewrite Hyz, Hxz, IH. reflexivity.
Qed.

Lemma sortByName_permutation {A : Type} (l l' : list (string * A)) :
  Permutation l l' -> NoDup (map fst l) -> sortByName l = sortByName l'.
Proof.
  induction 1 as [| x l l' _ IH | x y l | l l' l'' H1 IH1 H2 IH2]; intros Hn.
  - reflexivity.
  - simpl. inversion Hn; subst. rewrite IH by assumption. reflexivity.
  - simpl. apply insert_insert. simpl in Hn. inversion Hn as [|? ? Hin _]; subst.
    intros Heq. apply Hin. left. symmetry. exact Heq.
  - rewrite IH1 by assumption. apply IH2.
    eapply Permutation_NoDup; [|exact Hn]. apply Permutation_map. exact H1.
Qed.

(** X16. The members the walk writes for a directory do not depend on the
    order in which the directory lists its entries: two listings of the same
    entries, with names that are all different, give the same members in the
    same order and the same error. *)
Theorem walk_listing_order
    (target path : string) (st : Stat) (entries entries' : list (string * Node)) :
  Permutation entries entries' ->
  NoDup (map fst entries) ->
  walk target path (Dir st entries) = walk target path (Dir st entries').
Proof.
  intros Hp Hn. simpl. unfold visit. simpl.
  destruct (access st); simpl; [|reflexivity].
  rewrite (sortByName_permutation
             (map (fun e => (fst e, walk target (Join path (fst e)) (snd e)))
                  entries)
             (map (fun e => (fst e, walk target (Join path (fst e)) (snd e)))
                  entries')).
  - reflexivity.
  - apply Permutation_map. exact Hp.
  - rewrite map_map. simpl. exact Hn.
Qed.

Lemma walk_listing_order_witness :
  walk "/dest" "a"
       (Dir Sample.rw (("x.txt", File Sample.rw (x68 :: nil))
                       :: ("b", Dir Sample.rw nil) :: nil))
  = walk "/dest" "a"
         (Dir Sample.rw (("b", Dir Sample.rw nil)
                         :: ("x.txt", File Sample.rw (x68 :: nil)) :: nil)).
Proof.
  apply (walk_listing_order "/dest" "a" Sample.rw).
  - apply perm_swap.
  - repeat constructor; simpl; intuition discriminate.
Defined.

End ArchiveFacts.

(** * Layers *)

Module LayerFacts.

Import Layer.

(** X17. [inChdir] asks for the working directory, enters the layer's
    directory, runs the function and goes back, in that order, and gives up
    at the first failure.  When the function fails its error is returned and
    no call follows: the process is left in the layer's directory.  Only when
    the function succeeded does [inChdir] go back to the directory it started
    from, and its result is then the result of going back. *)
Theorem inChdir_paths
    (l : Layer) (fun_ : Layer -> Prog OS error) (tr : list (Event OS))
    (res : error) :
  Path (inChdir l fun_) tr res ->
  exists wd,
    (exists e, tr = Ev Getwd (wd, Some e) :: nil /\ res = Some e)
    \/
    (exists e,
        tr = Ev Getwd (wd, None) :: Ev (Chdir (workingDir l)) (Some e) :: nil
        /\ res = Some e)
    \/
    (exists trf e,
        Path (fun_ l) trf (Some e)
        /\ tr = (Ev Getwd (wd, None) :: Ev (Chdir (workingDir l)) None :: trf)
        /\ res = Some e)
    \/
    (exists trf,
        Path (fun_ l) trf None
        /\ tr = (Ev Getwd (wd, None) :: Ev (Chdir (workingDir l)) None
                 :: trf ++ Ev (Chdir wd) res :: nil)%list).
Proof.
  unfold inChdir, call. simpl.
  intros ([wd [e|]] & t1 & -> & H); simpl in H; exists wd.
  { destruct H as [-> <-]. left. eauto. }
  destruct H as ([e|] & t2 & -> & H); simpl in H.
  { destruct H as [-> <-]. right. left. eauto. }
  apply path_bind_inv in H. destruct H as (trf & t3 & ferr & -> & Hf & H).
  destruct ferr as [e|]; simpl in H.
  - destruct H as [-> <-]. right. right. left. exists trf, e.
    rewrite app_nil_r. auto.
  - destruct H as (r & t4 & -> & -> & <-). right. right. right.
    exists trf. auto.
Qed.

Lemma inChdir_paths_witness :
  exists wd : string, wd = wd.
Proof.
  destruct (inChdir_paths Fixtures.layer
              (fun l => call (Mkdir (dirname l) dirMode))
              (Ev Getwd ("/home", None)
               :: Ev (Chdir "/srv/build") None
               :: Ev (Mkdir "build" 511) (Some "file exists") :: nil)
              (Some "file exists")
              ltac:(simpl; unfold call; simpl;
                    repeat (eexists _, _; split; [reflexivity|]; simpl); auto))
    as (wd & _).
  exists wd. reflexivity.
Defined.

(** X18. [Create] makes the directory [dirname] with mode 0777 and [Remove]
    removes it with everything below, both from inside the layer's working
    directory; when that goes through they return to the directory the
    process was in, and when it fails they return the error and stay. *)
Theorem Create_Remove_paths (l : Layer) (wd e : string) (r : error) :
  Path (Create l)
       (Ev Getwd (wd, None) :: Ev (Chdir (workingDir l)) None
        :: Ev (Mkdir (dirname l) 511) None :: Ev (Chdir wd) r :: nil) r
  /\ Path (Create l)
          (Ev Getwd (wd, None) :: Ev (Chdir (workingDir l)) None
           :: Ev (Mkdir (dirname l) 511) (Some e) :: nil) (Some e)
  /\ Path (Remove l)
          (Ev Getwd (wd, None) :: Ev (Chdir (workingDir l)) None
           :: Ev (RemoveAll (dirname l)) None :: Ev (Chdir wd) r :: nil) r
  /\ Path (Remove l)
          (Ev Getwd (wd, None) :: Ev (Chdir (workingDir l)) None
           :: Ev (RemoveAll (dirname l)) (Some e) :: nil) (Some e).
Proof.
  unfold Create, Remove, inChdir, call. simpl.
  repeat split;
    repeat (eexists _, _; split; [reflexivity|]; simpl); auto.
Qed.

(** *** Cleaned paths *)

Lemma split_not_nil s : Files.split s <> nil.
Proof.
  destruct s as [|c s]; simpl; [discriminate|].
  destruct (Ascii.eqb c Files.slash); [discriminate|].
  destruct (Files.split s); discriminate.
Qed.

Lemma split_elements s :
  Forall (fun e => Files.rooted e = false /\ Files.split e = e :: nil)
         (Files.split s).
Proof.
  induction s as [|c s IH]; simpl.
  - constructor; [split; reflexivity | constructor].
  - destruct (Ascii.eqb c Files.slash) eqn:Hc.
    + constructor; [split; reflexivity | exact IH].
    + destruct (Files.split s) as [|h t]; [constructor; [|constructor]|].
      * simpl. rewrite Hc. split; reflexivity.
      * inversion IH as [|? ? [_ Hh] Ht]; subst.
        constructor; [|exact Ht]. simpl. rewrite Hc, Hh. split; reflexivity.
Qed.

Lemma cleanElems_Forall (Q : string -> Prop) isRooted :
  forall elems out,
    Forall Q elems -> Forall Q out ->
    Forall Q (Files.cleanElems isRooted elems out).
Proof.
  induction elems as [|e elems IH]; intros out He Ho; simpl.
  - apply Forall_rev. exact Ho.
  - inversion He as [|? ? Hq Hrest]; subst.
    destruct ((e =? "") || (e =? ".")); [apply IH; assumption|].
    destruct (e =? "..").
    + destruct out as [|top below].
      * destruct isRooted; apply IH; auto.
      * inversion Ho; subst.
        destruct (top =? ".."); apply IH; auto.
    + apply IH; auto.
Qed.

Lemma cleanElems_nonempty isRooted :
  forall elems out,
    Forall (fun e => e <> "") out ->
    Forall (fun e => e <> "") (Files.cleanElems isRooted elems out).
Proof.
  induction elems as [|e elems IH]; intros out Ho; simpl.
  - apply Forall_rev. exact Ho.
  - destruct (e =? "") eqn:He; simpl; [apply IH; assumption|].
    apply String.eqb_neq in He.
    destruct (e =? "."); [apply IH; assumption|].
    destruct (e =? "..").
    + destruct out as [|top below].
      * destruct isRooted; apply IH; auto.
      * inversion Ho; subst.
        destruct (top =? ".."); apply IH; auto.
    + apply IH; auto.
Qed.

Lemma cleanElems_rooted_no_dotdot :
  forall elems out,
    Forall (fun e => e <> "..") out ->
    Forall (fun e => e <> "..") (Files.cleanElems true elems out).
Proof.
  induction elems as [|e elems IH]; intros out Ho; simpl.
  - apply Forall_rev. exact Ho.
  - destruct ((e =? "") || (e =? ".")); [apply IH; assumption|].
    destruct (e =? "..") eqn:He.
    + destruct out as [|top below]; [apply IH; assumption|].
      inversion Ho as [|? ? Ht Hb]; subst.
      apply String.eqb_neq in Ht. rewrite Ht. apply IH. exact Hb.
    + apply String.eqb_neq in He. apply IH. auto.
Qed.

Lemma rooted_app e x : e <> "" -> Files.rooted (e ++ x) = Files.rooted e.
Proof. destruct e; [contradiction | reflexivity]. Qed.

Lemma rooted_concat l :
  Forall (fun e => Files.rooted e = false) l ->
  Forall (fun e => e <> "") l ->
  Files.rooted (String.concat "/" l) = false.
Proof.
  intros Hr Hn. destruct l as [|e [|e' l]]; simpl; [reflexivity|..];
    inversion Hr; inversion Hn; subst; [assumption|].
  rewrite rooted_app by assumption. assumption.
Qed.

Lemma rooted_Clean p : Files.rooted (Files.Clean p) = Files.rooted p.
Proof.
  unfold Files.Clean. destruct (Files.rooted p) eqn:Hp; simpl; [reflexivity|].
  set (elems := Files.cleanElems false (Files.split p) nil).
  destruct (String.concat "/" elems =? "") eqn:Hb; [reflexivity|].
  apply rooted_concat.
  - apply cleanElems_Forall; [|constructor].
    eapply Forall_impl; [|apply split_elements]. intros e [He _]. exact He.
  - apply cleanElems_nonempty. constructor.
Qed.

Lemma split_app_slash e s :
  Files.split e = e :: nil ->
  Files.split (e ++ String Files.slash s) = e :: Files.split s.
Proof.
  induction e as [|c e IH]; intros He; [reflexivity|].
  simpl in He. cbn [append Files.split].
  destruct (Ascii.eqb c Files.slash) eqn:Hc.
  - injection He as He. discriminate.
  - destruct (Files.split e) as [|h t] eqn:Hs.
    + exfalso. exact (split_not_nil e Hs).
    + injection He as -> ->. rewrite IH by reflexivity. reflexivity.
Qed.

Lemma split_concat l :
  l <> nil ->
  Forall (fun e => Files.split e = e :: nil) l ->
  Files.split (String.concat "/" l) = l.
Proof.
  intros Hl Hs. induction Hs as [|e l He Hs IH]; [contradiction|].
  destruct l as [|e' l]; [exact He|].
  etransitivity; [apply (split_app_slash e _ He)|].
  f_equal. apply IH. discriminate.
Qed.

Lemma split_Clean_rooted p :
  Files.rooted p = true ->
  Forall (fun e => e <> "..") (Files.split (Files.Clean p))
  /\ Files.Clean p <> "" /\ Files.Clean p <> ".".
Proof.
  intros Hp. unfold Files.Clean. rewrite Hp. simpl.
  set (elems := Files.cleanElems true (Files.split p) nil).
  split; [|split; discriminate].
  constructor; [discriminate|].
  destruct elems as [|e l] eqn:He.
  - simpl. constructor; [discriminate | constructor].
  - rewrite split_concat; [| discriminate |].
    + rewrite <- He. apply cleanElems_rooted_no_dotdot. constructor.
    + rewrite <- He. apply cleanElems_Forall; [|constructor].
      eapply Forall_impl; [|apply split_elements]. intros x [_ Hx]. exact Hx.
Qed.

Lemma relBlocked_without_dotdot base targ :
  Forall (fun e => e <> "..") base -> relBlocked base targ = false.
Proof.
  intros H. revert targ. induction H as [|b base Hb _ IH]; intros targ;
    [reflexivity|].
  destruct targ as [|t targ]; simpl; [reflexivity|].
  destruct (b =? t); [apply IH|]. apply String.eqb_neq. exact Hb.
Qed.

Lemma RelError_mixed base targ :
  Files.rooted base = true -> Files.rooted targ = false ->
  RelError base targ
  = Some ("Rel: can't make " ++ targ ++ " relative to " ++ base).
Proof.
  intros Hb Ht. unfold RelError.
  destruct (Files.Clean targ =? Files.Clean base) eqn:He.
  - apply String.eqb_eq in He.
    pose proof (rooted_Clean targ) as H1. pose proof (rooted_Clean base) as H2.
    rewrite He in H1. congruence.
  - destruct (Files.Clean base =? ".") eqn:Hd.
    + apply String.eqb_eq in Hd. pose proof (rooted_Clean base) as H2.
      rewrite Hd, Hb in H2. discriminate.
    + rewrite !rooted_Clean, Hb, Ht. reflexivity.
Qed.

Lemma RelError_rooted base targ :
  Files.rooted base = true -> Files.rooted targ = true ->
  RelError base targ = None.
Proof.
  intros Hb Ht. unfold RelError.
  destruct (Files.Clean targ =? Files.Clean base); [reflexivity|].
  destruct (split_Clean_rooted base Hb) as (Hno & Hne & Hnd).
  apply String.eqb_neq in Hnd. rewrite Hnd.
  rewrite !rooted_Clean, Hb, Ht. simpl.
  apply String.eqb_neq in Hne. rewrite Hne.
  rewrite relBlocked_without_dotdot by exact Hno. reflexivity.
Qed.

(** X19. Without a working directory argument, [New] takes the process's
    working directory as the base; as that is a rooted path, a directory
    name that is not rooted (the empty name included) is refused with the
    error of [filepath.Rel], and nothing else is called. *)
Theorem New_refuses_relative (dirname wd : string) :
  Files.rooted wd = true ->
  Files.rooted dirname = false ->
  Path (New dirname "") (Ev Getwd (wd, None) :: nil)
       (None,
        Some ("Rel: can't make " ++ dirname ++ " relative to " ++ wd)).
Proof.
  intros Hw Hd. unfold New, call. simpl.
  exists (wd, None), nil. split; [reflexivity|]. simpl.
  rewrite RelError_mixed by assumption. simpl. auto.
Qed.

Lemma New_refuses_relative_witness :
  Path (New ".." "") (Ev Getwd ("/home/box", None) :: nil)
       (None, Some "Rel: can't make .. relative to /home/box").
Proof.
  apply (New_refuses_relative ".." "/home/box"); reflexivity.
Defined.

(** X20. A rooted directory name is accepted against any rooted base.  With a
    rooted working directory argument [New] calls nothing at all; without
    one it asks for the working directory once.  The layer it returns keeps
    the name as given and has the cleaned name as its working directory. *)
Theorem New_accepts_rooted (dirname workingDir wd : string) :
  Files.rooted dirname = true ->
  (Files.rooted workingDir = true ->
   New dirname workingDir
   = Ret (Some (mkLayer dirname (Files.Clean dirname)), None))
  /\
  (Files.rooted wd = true ->
   Path (New dirname "") (Ev Getwd (wd, None) :: nil)
        (Some (mkLayer dirname (Files.Clean dirname)), None)).
Proof.
  intros Hd. split.
  - intros Hw. unfold New.
    destruct (workingDir =? "") eqn:He;
      [apply String.eqb_eq in He; subst; discriminate|].
    simpl. rewrite RelError_rooted by assumption.
    unfold Abs. rewrite Hd. reflexivity.
  - intros Hw. unfold New, call. simpl.
    exists (wd, None), nil. split; [reflexivity|]. simpl.
    rewrite RelError_rooted by assumption.
    unfold Abs. rewrite Hd. simpl. auto.
Qed.

Lemma New_accepts_rooted_witness :
  Path (New "/tmp/box-layer-test1" "")
       (Ev Getwd ("/home/box", None) :: nil)
       (Some (mkLayer "/tmp/box-layer-test1" "/tmp/box-layer-test1"), None).
Proof.
  apply (proj2 (New_accepts_rooted "/tmp/box-layer-test1" "" "/home/box"
                  eq_refl) eq_refl).
Defined.

(** X21. A layer returned by [New] comes without an error, keeps the
    directory name as given, and has as its working directory the absolute
    form of that name: the cleaned name when it is rooted, and otherwise the
    name joined to the working directory the process reported last.  The
    working directory argument only takes part in the check; it is not what
    the layer stores. *)
Theorem New_layer
    (dirname workingDir : string) (tr : list (Event OS)) (l : Layer)
    (err : error) :
  Path (New dirname workingDir) tr (Some l, err) ->
  err = None
  /\ Layer.dirname l = dirname
  /\ (Files.rooted dirname = true
      /\ Layer.workingDir l = Files.Clean dirname
      \/
      Files.rooted dirname = false
      /\ exists pre wd,
          tr = (pre ++ Ev Getwd (wd, None) :: nil)%list
          /\ Layer.workingDir l = Files.Join wd dirname).
Proof.
  unfold New. intros H. apply path_bind_inv in H.
  destruct H as (t1 & t2 & [base berr] & -> & _ & H).
  destruct berr as [e|]; simpl in H; [destruct H as [_ [=]]|].
  destruct (RelError base dirname) as [e|]; simpl in H;
    [destruct H as [_ [=]]|].
  unfold Abs in H. destruct (Files.rooted dirname) eqn:Hd; simpl in H.
  - destruct H as [_ [= <- <-]]. auto.
  - unfold call in H. simpl in H.
    destruct H as ([wd [e|]] & t3 & -> & H); simpl in H;
      destruct H as [-> [= <- <-]].
    split; [reflexivity|]. split; [reflexivity|]. right.
    split; [reflexivity|]. exists t1, wd. auto.
Qed.

Lemma New_layer_witness :
  Layer.workingDir (mkLayer ".." "/home") = Files.Join "/home/box" "..".
Proof.
  destruct (New_layer ".." ".." (Ev Getwd ("/home/box", None) :: nil)
              (mkLayer ".." "/home") None
              ltac:(unfold New, call; simpl;
                    eexists (_, None), _; split; [reflexivity|]; simpl; auto))
    as (_ & _ & [[Hr _] | (_ & pre & wd & Htr & Hw)]); [discriminate|].
  exact eq_refl.
Defined.

End LayerFacts.
